(** * quepy.quepyapp: the Quepy application API

    A shallow embedding of [quepy/quepyapp.py] (Python 2) and the
    properties of its question sanitizer, sub-pattern decomposition,
    duplicate removal, rule registry and matching pipeline. *)

Set Warnings "-register-all".

From Stdlib Require Import List String Ascii ZArith Bool Lia Arith.
From Stdlib Require Import Permutation Sorted.
Import ListNotations.

Open Scope string_scope.
Open Scope list_scope.

(** ** Python strings

    A Python 2 [str] is a sequence of 8-bit characters: [string]. *)

Module PyStr.

Definition squote : ascii := "'"%char.
Definition dquote : ascii := "034"%char.
Definition backslash : ascii := "\"%char.

(** [s.startswith(p)] *)
Definition startswith (s p : string) : bool := prefix p s.

(** [s.replace(old, new)] with a non-empty [old]: the occurrences of
    [old] are replaced from left to right and do not overlap; [skip]
    counts the characters of the occurrence just replaced that are
    still to be passed over. *)
Fixpoint replace_from (old new s : string) (skip : nat) : string :=
  match s with
  | EmptyString => EmptyString
  | String c s' =>
      match skip with
      | S k => replace_from old new s' k
      | O =>
          if prefix old s
          then new ++ replace_from old new s' (length old - 1)
          else String c (replace_from old new s' 0)
      end
  end.

(** With an empty [old], Python puts [new] before every character and
    at the end. *)
Fixpoint interleave (new s : string) : string :=
  match s with
  | EmptyString => new
  | String c s' => new ++ String c (interleave new s')
  end.

Definition replace (s old new : string) : string :=
  match old with
  | EmptyString => interleave new s
  | String _ _ => replace_from old new s 0
  end.

(** Replacing a one-character [old]: every occurrence of the character
    is expanded into [new]. *)
Fixpoint expand (q : ascii) (new s : string) : string :=
  match s with
  | EmptyString => EmptyString
  | String c s' =>
      if Ascii.eqb q c then new ++ expand q new s'
      else String c (expand q new s')
  end.

(** [c in s] *)
Fixpoint contains (c : ascii) (s : string) : bool :=
  match s with
  | EmptyString => false
  | String d s' => Ascii.eqb c d || contains c s'
  end.

(** [s.upper()] on the ASCII letters. *)
Definition upper_char (c : ascii) : ascii :=
  let n := nat_of_ascii c in
  if (97 <=? n)%nat && (n <=? 122)%nat then ascii_of_nat (n - 32) else c.

Fixpoint upper (s : string) : string :=
  match s with
  | EmptyString => EmptyString
  | String c s' => String (upper_char c) (upper s')
  end.

End PyStr.

(** ** [question_sanitize] (quepyapp.py, lines 50-53)

    Python reads the first replacement literal (backslash, single quote)
    as the one-character string made of a single quote, and the second
    one (backslash, backslash, backslash, double quote) as a backslash
    followed by a double quote. *)

Definition question_sanitize (question : string) : string :=
  let question :=
    PyStr.replace question (String PyStr.squote "") (String PyStr.squote "") in
  let question :=
    PyStr.replace question (String PyStr.dquote "")
      (String PyStr.backslash (String PyStr.dquote "")) in
  question.

(** An occurrence of [q] is escaped when the character just before it is
    a backslash; [prev] tells whether the previous character was one. *)
Fixpoint escaped_from (q : ascii) (prev : bool) (s : string) : bool :=
  match s with
  | EmptyString => true
  | String c s' =>
      (if Ascii.eqb c q then prev else true)
      && escaped_from q (Ascii.eqb c PyStr.backslash) s'
  end.

(** [all_escaped q s]: [s] has no occurrence of [q] that is not
    immediately preceded by a backslash. *)
Definition all_escaped (q : ascii) (s : string) : bool :=
  escaped_from q false s.

(** ** Python objects, as the decomposer sees them

    [refo_subpatterns] looks at a pattern through reflection only:
    [isinstance], [dir] and [getattr].  An object is therefore given by
    its class and by its attributes, listed in the order of [dir] (sorted
    by name, every name once). *)

(** Where a class stands in the hierarchy the source tests for:
    [Particle] (a [Pattern] through refo's [Group]), refo's [Question]
    (a [Pattern]), any other [Pattern], and everything else. *)
Inductive kind := KParticle | KQuestion | KPattern | KOther.

Record klass := Klass { class_name : string; class_kind : kind }.

Inductive pyobj :=
| Instance (cls : klass) (attrs : list (string * pyobj))
| PyList (items : list pyobj)
| Atom (type_name : string) (value : string).

Definition kind_eqb (a b : kind) : bool :=
  match a, b with
  | KParticle, KParticle | KQuestion, KQuestion
  | KPattern, KPattern | KOther, KOther => true
  | _, _ => false
  end.

Definition klass_eqb (a b : klass) : bool :=
  String.eqb (class_name a) (class_name b)
  && kind_eqb (class_kind a) (class_kind b).

(** [type(o)] *)
Inductive pytype := TClass (c : klass) | TList | TBuiltin (name : string).

Definition type (o : pyobj) : pytype :=
  match o with
  | Instance c _ => TClass c
  | PyList _ => TList
  | Atom t _ => TBuiltin t
  end.

Definition pytype_eqb (a b : pytype) : bool :=
  match a, b with
  | TClass c, TClass d => klass_eqb c d
  | TList, TList => true
  | TBuiltin s, TBuiltin t => String.eqb s t
  | _, _ => false
  end.

Definition kind_of (o : pyobj) : kind :=
  match o with
  | Instance c _ => class_kind c
  | _ => KOther
  end.

Definition isinstance_Particle (o : pyobj) : bool :=
  kind_eqb (kind_of o) KParticle.

Definition isinstance_Question (o : pyobj) : bool :=
  kind_eqb (kind_of o) KQuestion.

Definition isinstance_Pattern (o : pyobj) : bool :=
  negb (kind_eqb (kind_of o) KOther).

Fixpoint lookup {V : Type} (name : string) (l : list (string * V)) : option V :=
  match l with
  | [] => None
  | (a, v) :: l' => if String.eqb a name then Some v else lookup name l'
  end.

(** [getattr(o, name)]; [None] stands for [AttributeError]. *)
Definition getattr_obj (o : pyobj) (name : string) : option pyobj :=
  match o with
  | Instance _ attrs => lookup name attrs
  | _ => None
  end.

(** [not a.startswith('_')] *)
Definition public (a : string) : bool := negb (PyStr.startswith a "_").

(** ** [refo_subpatterns] (quepyapp.py, lines 56-73)

    The recursion of the source goes through [getattr]; here it walks
    the attribute list itself, which is what makes it structural.
    [refo_subpatterns_unfold] below states the recursion in the shape of
    the source.  A [Question] whose [arg] is missing cannot arise (refo
    sets it on construction) and contributes nothing here.  The [level]
    argument of the source only serves a commented-out trace and is
    left out.  The builtin values ([Atom], a list) have only methods and
    numbers as attributes, none of them a [Pattern]. *)
Fixpoint refo_subpatterns (regex : pyobj) : list pyobj :=
  match regex with
  | Instance cls attrs =>
      if kind_eqb (class_kind cls) KParticle then []
      else
        let visit := fun item : pyobj =>
          match item with
          | Instance c args =>
              if kind_eqb (class_kind c) KQuestion then
                (fix arg_of (l : list (string * pyobj)) : list pyobj :=
                   match l with
                   | [] => []
                   | (a, v) :: l' =>
                       if String.eqb a "arg" then
                         if isinstance_Pattern v
                         then refo_subpatterns v ++ [v]
                         else []
                       else arg_of l'
                   end) args
              else if negb (kind_eqb (class_kind c) KOther)
                   then refo_subpatterns item ++ [item]
                   else []
          | _ => []
          end in
        (fix attributes (l : list (string * pyobj)) : list pyobj :=
           match l with
           | [] => []
           | (a, attribute) :: l' =>
               (if public a then
                  match attribute with
                  | PyList items =>
                      (fix each (xs : list pyobj) : list pyobj :=
                         match xs with
                         | [] => []
                         | item :: rest => visit item ++ each rest
                         end) items
                  | _ => visit attribute
                  end
                else [])
               ++ attributes l'
           end) attrs
  | _ => []
  end.

(** The pieces of the source's loop, for [refo_subpatterns_unfold]. *)

(** [[getattr(regex, a) for a in dir(regex) if not a.startswith('_')]] *)
Definition public_attributes (regex : pyobj) : list pyobj :=
  match regex with
  | Instance _ attrs => map snd (filter (fun p => public (fst p)) attrs)
  | _ => []
  end.

(** [if not isinstance(attribute, list): attribute = [attribute]] *)
Definition as_list (attribute : pyobj) : list pyobj :=
  match attribute with
  | PyList items => items
  | _ => [attribute]
  end.

(** [if isinstance(at, Question): at = at.arg] *)
Definition unwrap_question (item : pyobj) : option pyobj :=
  if isinstance_Question item then getattr_obj item "arg" else Some item.

(** The body of the inner loop: what one item of an attribute adds to
    [patterns]. *)
Definition visit_item (item : pyobj) : list pyobj :=
  match unwrap_question item with
  | Some item =>
      if isinstance_Pattern item then refo_subpatterns item ++ [item] else []
  | None => []
  end.

(** Number of objects an object is made of. *)
Fixpoint size (o : pyobj) : nat :=
  match o with
  | Instance _ attrs =>
      S ((fix sum (l : list (string * pyobj)) : nat :=
            match l with
            | [] => 0
            | (_, v) :: l' => size v + sum l'
            end) attrs)
  | PyList items =>
      S ((fix sum (l : list pyobj) : nat :=
            match l with
            | [] => 0
            | v :: l' => size v + sum l'
            end) items)
  | Atom _ _ => 1
  end.

(** ** The Pattern Tree

    Modelled from the spec: the pattern algebra (refo's classes and
    quepy.parsing's [Particle]) is defined outside quepyapp.py.  The
    variants and their child references are those of the spec's Pattern
    Node; an [Optional] is refo's [Question], whose inner pattern the
    source reads as [arg]; a [Particle] wraps a pattern of its own (line
    60 of the source) that the decomposer leaves alone.  The test of an
    atomic predicate is kept by name. *)
Inductive PatternNode :=
| Sequence (children : list PatternNode)
| Repetition (inner : PatternNode)
| Optional (inner : PatternNode)
| Disjunction (alternatives : list PatternNode)
| AtomicPredicate (test : string) (capture_name : option string)
| AtomicAny
| Particle (name : string) (regex : PatternNode).

Definition pattern_class (name : string) : klass := Klass name KPattern.

(** The object a Pattern Node is at run time: its class and its child
    references.  Methods and other attributes that hold no pattern add
    nothing to a decomposition and are left out. *)
Fixpoint encode (p : PatternNode) : pyobj :=
  match p with
  | Sequence children =>
      Instance (pattern_class "Sequence")
        [("children", PyList (map encode children))]
  | Repetition inner =>
      Instance (pattern_class "Repetition") [("inner", encode inner)]
  | Optional inner =>
      Instance (Klass "Optional" KQuestion) [("arg", encode inner)]
  | Disjunction alternatives =>
      Instance (pattern_class "Disjunction")
        [("alternatives", PyList (map encode alternatives))]
  | AtomicPredicate test capture_name =>
      Instance (pattern_class "AtomicPredicate")
        [("capture_name",
          match capture_name with
          | Some n => Atom "str" n
          | None => Atom "NoneType" "None"
          end);
         ("test", Atom "function" test)]
  | AtomicAny => Instance (pattern_class "AtomicAny") []
  | Particle name regex =>
      Instance (Klass name KParticle) [("regex", encode regex)]
  end.

(** Composite nodes are the containers; the atomic leaves and, in the
    spec's reading, the Particles are not. *)
Definition composite (p : PatternNode) : bool :=
  match p with
  | Sequence _ | Repetition _ | Optional _ | Disjunction _ => true
  | AtomicPredicate _ _ | AtomicAny | Particle _ _ => false
  end.

(** Number of composite nodes in the tree, the root included. *)
Fixpoint composite_nodes (p : PatternNode) : nat :=
  (if composite p then 1 else 0) +
  match p with
  | Sequence l | Disjunction l =>
      (fix sum (l : list PatternNode) : nat :=
         match l with
         | [] => 0
         | c :: l' => composite_nodes c + sum l'
         end) l
  | Repetition q | Optional q | Particle _ q => composite_nodes q
  | AtomicPredicate _ _ | AtomicAny => 0
  end.

(** Number of composite nodes below the root. *)
Definition composite_below (p : PatternNode) : nat :=
  composite_nodes p - (if composite p then 1 else 0).

(** Number of nodes in the tree, leaves included. *)
Fixpoint nodes (p : PatternNode) : nat :=
  1 +
  match p with
  | Sequence l | Disjunction l =>
      (fix sum (l : list PatternNode) : nat :=
         match l with
         | [] => 0
         | c :: l' => nodes c + sum l'
         end) l
  | Repetition q | Optional q | Particle _ q => nodes q
  | AtomicPredicate _ _ | AtomicAny => 0
  end.

(** Trees built without [Optional] and without [Particle]. *)
Fixpoint plain (p : PatternNode) : bool :=
  match p with
  | Sequence l | Disjunction l =>
      (fix all (l : list PatternNode) : bool :=
         match l with
         | [] => true
         | c :: l' => plain c && all l'
         end) l
  | Repetition q => plain q
  | Optional _ | Particle _ _ => false
  | AtomicPredicate _ _ | AtomicAny => true
  end.

(** The post-order listing the decomposition amounts to on a Pattern
    Tree: for every child, with an [Optional] child replaced by its
    inner pattern, the child's own listing and then the child. *)
Fixpoint fragments (p : PatternNode) : list PatternNode :=
  let visit := fun c : PatternNode =>
    match c with
    | Optional q => fragments q ++ [q]
    | _ => fragments c ++ [c]
    end in
  match p with
  | Sequence l | Disjunction l =>
      (fix each (l : list PatternNode) : list PatternNode :=
         match l with
         | [] => []
         | c :: l' => visit c ++ each l'
         end) l
  | Repetition q | Optional q => visit q
  | AtomicPredicate _ _ | AtomicAny => []
  | Particle _ _ => []
  end.

(** What one child adds to the listing. *)
Definition visit_node (c : PatternNode) : list PatternNode :=
  match c with
  | Optional q => fragments q ++ [q]
  | _ => fragments c ++ [c]
  end.

(** [ordered o]: wherever an object stands in the decomposition of [o],
    its own decomposition stands right before it. *)
Definition ordered (o : pyobj) : Prop :=
  forall l1 x l2, refo_subpatterns o = l1 ++ x :: l2 ->
  exists l0, l1 = l0 ++ refo_subpatterns x.

(** The decomposition agrees with the listing, for a node and for the
    node taken as the item of a parent. *)
Definition agrees (p : PatternNode) : Prop :=
  refo_subpatterns (encode p) = map encode (fragments p) /\
  visit_item (encode p) = map encode (visit_node p).

(** In a tree without [Optional] and [Particle], a child adds as many
    fragments as it has nodes. *)
Definition counted (p : PatternNode) : Prop :=
  plain p = true ->
  List.length (fragments p) + 1 = nodes p /\
  List.length (visit_node p) = nodes p.

(** ** Structural comparison and duplicate removal (lines 76-93) *)

(** What the pattern algebra provides to this file: the rendering
    [repr] of an object and the partial pattern built around a fragment,
    [Star(Any()) + pattern + Star(Any())]. *)
Class PatternAlgebra := {
  repr : pyobj -> string;
  anywhere : pyobj -> pyobj
}.

Definition compare_patterns `{PatternAlgebra} (pattern1 pattern2 : pyobj)
  : bool :=
  if negb (pytype_eqb (type pattern1) (type pattern2)) then false
  else String.eqb (repr pattern1) (repr pattern2).

Fixpoint find_pattern {A : Type} (pattern : A) (iterable : list A)
  (f : A -> A -> bool) : bool :=
  match iterable with
  | [] => false
  | i :: rest => if f pattern i then true else find_pattern pattern rest f
  end.

(** [enumerate(iterable)] *)
Definition enumerate {A : Type} (iterable : list A) : list (nat * A) :=
  combine (seq 0 (List.length iterable)) iterable.

(** [[i for pos, i in enumerate(iterable)
       if not find_pattern(i, iterable[:pos], f)]] *)
Definition remove_duplicates {A : Type} (iterable : list A)
  (f : A -> A -> bool) : list A :=
  map snd
    (filter (fun e => negb (find_pattern (snd e) (firstn (fst e) iterable) f))
       (enumerate iterable)).

(** The comprehension of [remove_duplicates], read from left to right:
    [seen] holds the entries already passed. *)
Fixpoint dedup_from {A : Type} (f : A -> A -> bool) (seen l : list A)
  : list A :=
  match l with
  | [] => []
  | x :: l' =>
      if find_pattern x seen f then dedup_from f (seen ++ [x]) l'
      else x :: dedup_from f (seen ++ [x]) l'
  end.

(** The positions the comprehension keeps. *)
Definition kept_positions {A : Type} (f : A -> A -> bool) (l : list A)
  : list nat :=
  map fst
    (filter (fun e => negb (find_pattern (snd e) (firstn (fst e) l) f))
       (enumerate l)).

(** Number of entries of [l] that compare equal to [x]. *)
Definition copies `{PatternAlgebra} (x : pyobj) (l : list pyobj) : nat :=
  List.length (filter (compare_patterns x) l).

(** ** Values, modules and exceptions *)

(** The values a settings module holds. *)
Inductive PyValue :=
| VNone
| VBool (b : bool)
| VInt (n : Z)
| VStr (s : string)
| VUnicode (s : string).

(** Truth value, as [not x] takes it. *)
Definition truthy (v : PyValue) : bool :=
  match v with
  | VNone => false
  | VBool b => b
  | VInt n => negb (n =? 0)%Z
  | VStr s | VUnicode s => negb (String.eqb s "")
  end.

(** A module is its top-level bindings, in the order they were made; a
    later binding of a name replaces an earlier one. *)
Definition PyModule (V : Type) : Type := list (string * V).

Fixpoint insert_name (a : string) (sorted : list string) : list string :=
  match sorted with
  | [] => [a]
  | b :: rest =>
      if (a <=? b)%string then a :: sorted else b :: insert_name a rest
  end.

Definition sorted_names (names : list string) : list string :=
  fold_right insert_name [] names.

(** The order of [dir]. *)
Definition alphabetical (a b : string) : Prop := (a <=? b)%string = true.

(** [dir(module)]: the names bound in the module, every name once,
    sorted alphabetically. *)
Definition dir {V : Type} (m : PyModule V) : list string :=
  sorted_names (nodup string_dec (map fst m)).

(** [getattr(module, name)] *)
Definition getattr {V : Type} (m : PyModule V) (name : string) : option V :=
  lookup name (rev m).

(** [getattr(module, name, default)] *)
Definition getattr_default {V : Type} (m : PyModule V) (name : string)
  (default : V) : V :=
  match getattr m name with
  | Some v => v
  | None => default
  end.

(** [setattr(module, key, value)] *)
Definition setattr {V : Type} (m : PyModule V) (key : string) (value : V)
  : PyModule V :=
  m ++ [(key, value)].

Inductive Exn :=
| ValueError (message : string)
| TaggingError
| OtherError (name : string).

(** ** The collaborators of the application

    Modelled from the spec: the tagger, the encoding policy and the code
    generator are imported from modules outside quepyapp.py.  [get_tagger] is the tagging function: it either
    returns the tagged words (the spec's (word, tag) pairs) or raises;
    [encoding_flexible_conversion] normalizes text to the internal form;
    [get_code] turns an interpretation and the language into a target
    and a query. *)
Class Collaborators := {
  Word : Type;
  Expression : Type;
  Userdata : Type;
  get_tagger : string -> Exn + list Word;
  encoding_flexible_conversion : string -> string;
  get_code : Expression -> PyValue -> string * string
}.

Section Application.

Context `{PatternAlgebra} `{Collaborators}.

(** An instance of a [QuestionTemplate] subclass.  What
    [get_interpretation] returns is the pair of the source: an
    expression, [None] when the rule does not apply to the words, and
    the user data. *)
Record Rule := {
  rule_name : string;
  regex : pyobj;
  weight : Z;
  get_interpretation : list Word -> option Expression * option Userdata
}.

(** What a name of the parsing module is bound to: a subclass of
    [QuestionTemplate] (given by the instance its constructor
    returns), [QuestionTemplate] itself, another class, or a value for
    which [issubclass] raises [TypeError]. *)
Inductive Element :=
| RuleClass (r : Rule)
| QuestionTemplateClass
| OtherClass
| NotAClass.

Record QuepyApp := {
  _parsing_module : PyModule Element;
  _settings_module : PyModule PyValue;
  tagger : string -> Exn + list Word;
  language : PyValue;
  rules : list Rule;
  partial_rules : list pyobj
}.

(** *** [_save_settings_values] (lines 204-215): the state is the
    global [quepy.settings] module. *)
Fixpoint save_keys (keys : list string) (settings_module : PyModule PyValue)
  (settings : PyModule PyValue) : PyModule PyValue :=
  match keys with
  | [] => settings
  | key :: rest =>
      if String.eqb (PyStr.upper key) key then
        match getattr settings_module key with
        | Some value =>
            let value :=
              match value with
              | VStr s => VUnicode (encoding_flexible_conversion s)
              | _ => value
              end in
            save_keys rest settings_module (setattr settings key value)
        | None => save_keys rest settings_module settings
        end
      else save_keys rest settings_module settings
  end.

Definition _save_settings_values (settings_module : PyModule PyValue)
  (settings : PyModule PyValue) : PyModule PyValue :=
  save_keys (dir settings_module) settings_module settings.

(** *** [get_rules] (lines 124-134) *)
Fixpoint collect_rules (names : list string) (parsing : PyModule Element)
  : list Rule :=
  match names with
  | [] => []
  | element :: rest =>
      match getattr parsing element with
      | Some (RuleClass r) => r :: collect_rules rest parsing
      | _ => collect_rules rest parsing
      end
  end.

Definition get_rules (parsing : PyModule Element) : list Rule :=
  collect_rules (dir parsing) parsing.

(** *** [get_partial_rules] (lines 136-143) *)
Definition get_partial_rules (rules : list Rule) : list pyobj :=
  remove_duplicates
    (flat_map (fun rule => map anywhere (refo_subpatterns (regex rule)))
       rules)
    compare_patterns.

(** *** [rules.sort(key=lambda x: x.weight, reverse=True)]

    Python's sort is stable, with [reverse=True] too: rules of equal
    weight keep their order.  The sorted list is the one permutation
    of the rules that is descending by weight and stable, which is
    what this insertion sort computes ([sort_rules_perm],
    [sort_rules_sorted], [sort_rules_stable]). *)
Fixpoint insert_rule (r : Rule) (sorted : list Rule) : list Rule :=
  match sorted with
  | [] => [r]
  | x :: rest =>
      if (weight r <? weight x)%Z then x :: insert_rule r rest
      else r :: sorted
  end.

Definition sort_rules (l : list Rule) : list Rule :=
  fold_right insert_rule [] l.

(** *** [QuepyApp.__init__] (lines 101-122)

    The two assertions hold by typing.  The result is the global
    settings after the call and either the exception raised or the
    application. *)
Definition __init__ (parsing : PyModule Element)
  (settings_module : PyModule PyValue) (settings : PyModule PyValue)
  : PyModule PyValue * (Exn + QuepyApp) :=
  let settings := _save_settings_values settings_module settings in
  let language := getattr_default settings_module "LANGUAGE" VNone in
  if negb (truthy language) then
    (settings, inl (ValueError "Missing configuration for language"))
  else
    let rules := get_rules parsing in
    let partial_rules := get_partial_rules rules in
    let rules := sort_rules rules in
    (settings,
     inr {| _parsing_module := parsing;
            _settings_module := settings_module;
            tagger := get_tagger;
            language := language;
            rules := rules;
            partial_rules := partial_rules |}).

(** *** Generators and their effects

    A generator is run as the trace of what it does until it is
    exhausted or raises: texts handed to the tagger, records passed to
    the logger and values yielded.  A consumer that stops early sees a
    prefix of it. *)
Inductive Level := DEBUG | WARNING.

Inductive Message :=
| CantParse (question : string)
| TaggedQuestion (words : list Word)
| Interpretation (expression : Expression)
| QueryGenerated (query : string).

Inductive Effect :=
| Tagging (text : string)
| Logging (level : Level) (message : Message).

Inductive Gen (A : Type) :=
| Stop
| Throw (e : Exn)
| Do (effect : Effect) (k : Gen A)
| Yield (a : A) (k : Gen A).

Arguments Stop {A}.
Arguments Throw {A} e.
Arguments Do {A} effect k.
Arguments Yield {A} a k.

(** The values a generator yields when it is run to its end. *)
Fixpoint yielded {A : Type} (g : Gen A) : list A :=
  match g with
  | Stop | Throw _ => []
  | Do _ k => yielded k
  | Yield a k => a :: yielded k
  end.

(** The exception that ends the run, if one does. *)
Fixpoint raised {A : Type} (g : Gen A) : option Exn :=
  match g with
  | Stop => None
  | Throw e => Some e
  | Do _ k | Yield _ k => raised k
  end.

(** What the generator does, besides yielding, when it is run to its
    end. *)
Fixpoint effects {A : Type} (g : Gen A) : list Effect :=
  match g with
  | Stop | Throw _ => []
  | Do e k => e :: effects k
  | Yield _ k => effects k
  end.

(** The records among the effects, and the texts tagged. *)
Definition logged (l : list Effect) : list (Level * Message) :=
  flat_map (fun e => match e with
                     | Logging level message => [(level, message)]
                     | Tagging _ => []
                     end) l.

Definition tagged (l : list Effect) : list string :=
  flat_map (fun e => match e with
                     | Tagging text => [text]
                     | Logging _ _ => []
                     end) l.

(** *** [_iter_compiled_forms] (lines 184-202) *)
Fixpoint try_rules (rules : list Rule) (words : list Word)
  : Gen (Expression * option Userdata) :=
  match rules with
  | [] => Stop
  | rule :: rest =>
      let (expression, userdata) := get_interpretation rule words in
      match expression with
      | Some expression => Yield (expression, userdata) (try_rules rest words)
      | None => try_rules rest words
      end
  end.

Definition _iter_compiled_forms (self : QuepyApp) (question : string)
  : Gen (Expression * option Userdata) :=
  Do (Tagging question)
    match tagger self question with
    | inl TaggingError => Do (Logging WARNING (CantParse question)) Stop
    | inl e => Throw e
    | inr words =>
        Do (Logging DEBUG (TaggedQuestion words))
          (try_rules (rules self) words)
    end.

(** *** [get_queries] (lines 163-182) *)
Fixpoint generate (self : QuepyApp) (forms : Gen (Expression * option Userdata))
  : Gen (string * string * option Userdata) :=
  match forms with
  | Stop => Stop
  | Throw e => Throw e
  | Do e k => Do e (generate self k)
  | Yield (expression, userdata) k =>
      let (target, query) := get_code expression (language self) in
      Do (Logging DEBUG (Interpretation expression))
        (Do (Logging DEBUG (QueryGenerated query))
           (Yield (target, query, userdata) (generate self k)))
  end.

Definition get_queries (self : QuepyApp) (question : string)
  : Gen (string * string * option Userdata) :=
  let question := encoding_flexible_conversion question in
  generate self (_iter_compiled_forms self question).

(** *** [get_query] (lines 145-161)

    The loop returns at the first value the generator yields; the
    result is the effects up to there and the triple returned or the
    exception raised. *)
Definition Answer : Type := option string * option string * option Userdata.

Fixpoint first_answer (g : Gen (string * string * option Userdata))
  : list Effect * (Exn + Answer) :=
  match g with
  | Stop => ([], inr (None, None, None))
  | Throw e => ([], inl e)
  | Do e k => let (done, r) := first_answer k in (e :: done, r)
  | Yield (target, query, userdata) _ =>
      ([], inr (Some target, Some query, userdata))
  end.

Definition get_query (self : QuepyApp) (question : string)
  : list Effect * (Exn + Answer) :=
  let question := question_sanitize question in
  first_answer (get_queries self question).

(** The triple [get_query] returns for a yielded value. *)
Definition answer_of (y : string * string * option Userdata) : Answer :=
  let '(target, query, userdata) := y in (Some target, Some query, userdata).

(** The first item of a sequence, [(None, None, None)] when empty. *)
Definition first_or_none (l : list (string * string * option Userdata))
  : Answer :=
  match l with
  | [] => (None, None, None)
  | y :: _ => answer_of y
  end.

(** The rule applies to the words: [get_interpretation] returns an
    expression. *)
Definition matches (words : list Word) (rule : Rule) : bool :=
  match fst (get_interpretation rule words) with
  | Some _ => true
  | None => false
  end.

(** What [get_queries] yields for a rule that applies. *)
Definition produced (self : QuepyApp) (words : list Word) (rule : Rule)
  : option (string * string * option Userdata) :=
  match get_interpretation rule words with
  | (Some expression, userdata) =>
      let (target, query) := get_code expression (language self) in
      Some (target, query, userdata)
  | (None, _) => None
  end.

(** *** Orders on the rules *)

(** The order of the sorted list: weights do not increase. *)
Definition descending (x y : Rule) : Prop := (weight y <= weight x)%Z.

(** The rule of greatest weight among those [m] accepts, the first of
    them in the list. *)
Fixpoint best (m : Rule -> bool) (l : list Rule) : option Rule :=
  match l with
  | [] => None
  | a :: l' =>
      if m a then
        match best m l' with
        | Some r => if (weight a <? weight r)%Z then Some r else Some a
        | None => Some a
        end
      else best m l'
  end.

End Application.

Arguments Stop {_ A}.
Arguments Throw {_ A} e.
Arguments Do {_ A} effect k.
Arguments Yield {_ A} a k.

(** ** A small platform to run the definitions on

    Modelled from the spec: a rendering of objects by class name and
    attributes, the partial pattern as a sequence of any tokens, the
    fragment and any tokens, and stub collaborators: words are (word,
    tag) pairs, the tagger rejects the empty text and otherwise tags the
    whole text as one word, the encoding policy is the identity and the
    generated query is the interpretation itself. *)

Fixpoint render (o : pyobj) : string :=
  match o with
  | Instance c attrs =>
      (class_name c ++ "(" ++
       (fix fields (l : list (string * pyobj)) : string :=
          match l with
          | [] => ""
          | (a, v) :: l' => a ++ "=" ++ render v ++ ";" ++ fields l'
          end) attrs ++ ")")%string
  | PyList items =>
      ("[" ++
       (fix each (l : list pyobj) : string :=
          match l with
          | [] => ""
          | v :: l' => render v ++ ";" ++ each l'
          end) items ++ "]")%string
  | Atom _ v => v
  end.

Definition any_sequence : pyobj := encode (Repetition AtomicAny).

Definition around (pattern : pyobj) : pyobj :=
  Instance (pattern_class "Sequence")
    [("children", PyList [any_sequence; pattern; any_sequence])].

#[local] Instance rendered : PatternAlgebra :=
  {| repr := render; anywhere := around |}.

Definition one_word (text : string) : Exn + list (string * string) :=
  if String.eqb text "" then inl TaggingError else inr [(text, "NN")].

#[local] Instance stubs : Collaborators :=
  {| Word := string * string;
     Expression := string;
     Userdata := string;
     get_tagger := one_word;
     encoding_flexible_conversion := fun s => s;
     get_code := fun expression _ => ("x", expression) |}.

(** The same, with a tagger that always raises the tagging error. *)
Definition failing_tagger : Collaborators :=
  {| Word := string * string;
     Expression := string;
     Userdata := string;
     get_tagger := fun _ => inl TaggingError;
     encoding_flexible_conversion := fun s => s;
     get_code := fun expression _ => ("x", expression) |}.

(** A rule that applies to every question and answers with its first
    word, and one that applies when the first word has a backslash. *)
Definition first_word (words : list (string * string)) : string :=
  match words with
  | [] => ""
  | (w, _) :: _ => w
  end.

Definition echo_rule (name : string) (w : Z) : Rule :=
  {| rule_name := name;
     regex := encode (Sequence [AtomicAny]);
     weight := w;
     get_interpretation := fun words =>
       (Some (name ++ ":" ++ first_word words)%string, None) |}.

Definition backslash_rule : Rule :=
  {| rule_name := "Escaped";
     regex := encode (Sequence [Repetition AtomicAny]);
     weight := 1;
     get_interpretation := fun words =>
       if PyStr.contains PyStr.backslash (first_word words)
       then (Some "escaped", None) else (None, None) |}.

Definition english : PyModule PyValue := [("LANGUAGE", VStr "sparql")].

(** Parsing modules: two rules of equal weight, [Zeta] declared before
    [Alpha]; a light rule declared before a heavy one; and modules with
    one rule. *)
Definition zeta_alpha : PyModule Element :=
  [("Zeta", RuleClass (echo_rule "Zeta" 1));
   ("Alpha", RuleClass (echo_rule "Alpha" 1));
   ("QuestionTemplate", QuestionTemplateClass);
   ("__name__", NotAClass)].

Definition light_heavy : PyModule Element :=
  [("Alight", RuleClass (echo_rule "Light" 5));
   ("Heavy", RuleClass (echo_rule "Heavy" 10));
   ("Particle", OtherClass)].

Definition escaped_only : PyModule Element :=
  [("Escaped", RuleClass backslash_rule)].

Definition echo_only : PyModule Element :=
  [("Echo", RuleClass (echo_rule "Echo" 1))].

(** The name Bob between double quotes. *)
Definition quoted : string :=
  String PyStr.dquote ("Bob" ++ String PyStr.dquote "")%string.

(** A sequence of a repetition and an atom: the repetition's atom, the
    repetition, the atom. *)
Definition two_children : PatternNode :=
  Sequence [Repetition (AtomicPredicate "is_noun" None); AtomicAny].

(** ** Definitions for the properties of the rest of the code *)

(** Number of occurrences of a character in a string. *)
Fixpoint count_char (c : ascii) (s : string) : nat :=
  match s with
  | EmptyString => 0
  | String d s' => (if Ascii.eqb c d then 1 else 0) + count_char c s'
  end.

(** The value [_save_settings_values] stores for a value of the settings
    module (lines 212-215): a [str] goes through the encoding policy,
    anything else is stored as it is. *)
Definition saved_value `{Collaborators} (value : PyValue) : PyValue :=
  match value with
  | VStr s => VUnicode (encoding_flexible_conversion s)
  | _ => value
  end.

(** Collaborators whose tagger fails with an error of its own. *)
Definition crashing_tagger : Collaborators :=
  {| Word := string * string;
     Expression := string;
     Userdata := string;
     get_tagger := fun _ => inl (OtherError "IOError");
     encoding_flexible_conversion := fun s => s;
     get_code := fun expression _ => ("x", expression) |}.

(** A settings module that declares an empty language. *)
Definition empty_language : PyModule PyValue :=
  [("LANGUAGE", VStr ""); ("DEBUG", VBool true); ("name", VStr "demo")].

(** A parsing module that binds no rule class. *)
Definition no_rules : PyModule Element :=
  [("QuestionTemplate", QuestionTemplateClass);
   ("Particle", OtherClass); ("__doc__", NotAClass)].

(** ** Properties of [question_sanitize] *)

Section Sanitize.

Import PyStr.

Lemma prefix_one (q c : ascii) (s : string) :
  prefix (String q "") (String c s) = Ascii.eqb q c.
Proof.
  simpl. destruct (ascii_dec q c) as [->|Hne].
  - rewrite Ascii.eqb_refl. now destruct s.
  - symmetry. now apply Ascii.eqb_neq.
Qed.

Lemma replace_one (q : ascii) (new s : string) :
  replace s (String q "") new = expand q new s.
Proof.
  unfold replace. induction s as [|c s IH]; [reflexivity|].
  cbn [replace_from expand]. rewrite prefix_one.
  cbn [length Nat.sub]. now rewrite IH.
Qed.

Lemma expand_same (q : ascii) (s : string) :
  expand q (String q "") s = s.
Proof.
  induction s as [|c s IH]; [reflexivity|].
  simpl. destruct (Ascii.eqb q c) eqn:E.
  - apply Ascii.eqb_eq in E. subst. simpl. now rewrite IH.
  - now rewrite IH.
Qed.

(** The sanitizer leaves single quotes as they are and puts a backslash
    before every double quote. *)
Lemma question_sanitize_expand (question : string) :
  question_sanitize question
  = expand dquote (String backslash (String dquote "")) question.
Proof.
  unfold question_sanitize. now rewrite !replace_one, expand_same.
Qed.

Lemma expand_escaped (s : string) (prev : bool) :
  escaped_from dquote prev
    (expand dquote (String backslash (String dquote "")) s) = true.
Proof.
  revert prev. induction s as [|c s IH]; intro prev; [reflexivity|].
  cbn [expand]. destruct (Ascii.eqb dquote c) eqn:E.
  - cbn. apply IH.
  - cbn [escaped_from]. rewrite Ascii.eqb_sym, E. cbn. apply IH.
Qed.

Lemma expand_longer (s : string) :
  (length s <= length (expand dquote (String backslash (String dquote "")) s))%nat.
Proof.
  induction s as [|c s IH]; [apply Nat.le_refl|].
  cbn [expand]. destruct (Ascii.eqb dquote c); cbn; lia.
Qed.

Lemma expand_fixed (s : string) :
  expand dquote (String backslash (String dquote "")) s = s
  <-> contains dquote s = false.
Proof.
  induction s as [|c s IH]; [now split|].
  cbn [expand contains]. destruct (Ascii.eqb dquote c) eqn:E; cbn.
  - split; [|discriminate]. intro Heq. exfalso.
    assert (L := f_equal length Heq). cbn in L.
    pose proof (expand_longer s). lia.
  - split.
    + intro Heq. injection Heq as Heq. now apply IH.
    + intro Hc. f_equal. now apply IH.
Qed.

Lemma expand_contains (s : string) :
  contains dquote (expand dquote (String backslash (String dquote "")) s)
  = contains dquote s.
Proof.
  induction s as [|c s IH]; [reflexivity|].
  cbn [expand]. destruct (Ascii.eqb dquote c) eqn:E;
    cbn [append contains]; rewrite E.
  - now rewrite Ascii.eqb_refl, orb_true_r.
  - exact IH.
Qed.

End Sanitize.

(** C4, as amended: every double quote of the text [question_sanitize]
    produces comes right after a backslash; sanitizing is not idempotent
    on double quotes: for a question with a double quote, sanitizing the
    sanitized text changes it again; and a question with neither a
    single nor a double quote is returned unchanged, so that sanitizing
    it twice is sanitizing it once.  Nothing is said of what becomes of
    a single quote. *)
Theorem question_sanitize_double_quotes (question : string) :
  all_escaped PyStr.dquote (question_sanitize question) = true /\
  (PyStr.contains PyStr.dquote question = true ->
   question_sanitize (question_sanitize question)
   <> question_sanitize question) /\
  (PyStr.contains PyStr.dquote question = false ->
   PyStr.contains PyStr.squote question = false ->
   question_sanitize question = question /\
   question_sanitize (question_sanitize question)
   = question_sanitize question).
Proof.
  split; [|split].
  - rewrite question_sanitize_expand. apply expand_escaped.
  - intros Hq Heq.
    rewrite (question_sanitize_expand (question_sanitize question)) in Heq.
    apply expand_fixed in Heq.
    rewrite question_sanitize_expand, expand_contains in Heq. congruence.
  - intros Hq _.
    assert (Hfix : question_sanitize question = question).
    { rewrite question_sanitize_expand. now apply expand_fixed. }
    split; [exact Hfix|]. now rewrite !Hfix.
Qed.

Lemma question_sanitize_double_quotes_witness :
  all_escaped PyStr.dquote (question_sanitize quoted) = true /\
  question_sanitize (question_sanitize quoted) <> question_sanitize quoted /\
  question_sanitize "Who is Bob?" = "Who is Bob?" /\
  question_sanitize (question_sanitize "Who is Bob?")
  = question_sanitize "Who is Bob?".
Proof.
  split; [|split].
  - apply (proj1 (question_sanitize_double_quotes quoted)).
  - apply (proj1 (proj2 (question_sanitize_double_quotes quoted))).
    reflexivity.
  - apply (proj2 (proj2 (question_sanitize_double_quotes "Who is Bob?")));
      reflexivity.
Defined.

(** C4 as stated fails: a single quote comes out with nothing before
    it, and sanitizing the sanitized form of a double quote changes it
    again. *)
Lemma question_sanitize_not_idempotent :
  all_escaped PyStr.squote (question_sanitize (String PyStr.squote "")) = false
  /\ question_sanitize (String PyStr.dquote "")
     = String PyStr.backslash (String PyStr.dquote "")
  /\ question_sanitize (question_sanitize (String PyStr.dquote ""))
     <> question_sanitize (String PyStr.dquote "").
Proof.
  repeat split; try reflexivity. discriminate.
Qed.

(** ** Properties of [refo_subpatterns] *)

Section Decomposition.

(** *** The recursion, in the shape of the source *)

Lemma arg_loop (args : list (string * pyobj)) :
  (fix arg_of (l : list (string * pyobj)) : list pyobj :=
     match l with
     | [] => []
     | (a, v) :: l' =>
         if String.eqb a "arg" then
           if isinstance_Pattern v then refo_subpatterns v ++ [v] else []
         else arg_of l'
     end) args
  = match lookup "arg" args with
    | Some v => if isinstance_Pattern v then refo_subpatterns v ++ [v] else []
    | None => []
    end.
Proof.
  induction args as [|[a v] args IH]; [reflexivity|].
  cbn [lookup]. destruct (String.eqb a "arg"); [reflexivity|exact IH].
Qed.

Lemma visit_inline (item : pyobj) :
  match item with
  | Instance c args =>
      if kind_eqb (class_kind c) KQuestion then
        (fix arg_of (l : list (string * pyobj)) : list pyobj :=
           match l with
           | [] => []
           | (a, v) :: l' =>
               if String.eqb a "arg" then
                 if isinstance_Pattern v then refo_subpatterns v ++ [v] else []
               else arg_of l'
           end) args
      else if negb (kind_eqb (class_kind c) KOther)
           then refo_subpatterns item ++ [item]
           else []
  | _ => []
  end = visit_item item.
Proof.
  destruct item as [c args|items|t v]; try reflexivity.
  unfold visit_item, unwrap_question, isinstance_Question.
  cbn [kind_of getattr_obj].
  destruct (kind_eqb (class_kind c) KQuestion) eqn:Eq.
  - rewrite arg_loop. now destruct (lookup "arg" args).
  - reflexivity.
Qed.

Lemma refo_subpatterns_Instance (cls : klass) (attrs : list (string * pyobj)) :
  refo_subpatterns (Instance cls attrs)
  = if kind_eqb (class_kind cls) KParticle then []
    else flat_map (fun attribute => flat_map visit_item (as_list attribute))
           (map snd (filter (fun p => public (fst p)) attrs)).
Proof.
  cbn [refo_subpatterns].
  destruct (kind_eqb (class_kind cls) KParticle); [reflexivity|].
  induction attrs as [|[a attribute] attrs IH]; [reflexivity|].
  cbn [filter fst]. destruct (public a).
  - cbn [map snd flat_map]. rewrite <- IH. f_equal.
    destruct attribute as [c args|items|t v]; cbn [as_list flat_map].
    + rewrite app_nil_r. apply (visit_inline (Instance c args)).
    + induction items as [|item rest IHr]; [reflexivity|].
      cbn [flat_map]. rewrite <- IHr, <- visit_inline. reflexivity.
    + reflexivity.
  - cbn [app]. exact IH.
Qed.

(** Lines 59-73 as they stand: nothing for a [Particle]; otherwise,
    for every public attribute, taken as a list, and every item of it,
    with a [Question] replaced by its [arg], the decomposition of the
    item and then the item, when it is a [Pattern]. *)
Lemma refo_subpatterns_unfold (regex : pyobj) :
  refo_subpatterns regex
  = if isinstance_Particle regex then []
    else flat_map (fun attribute => flat_map visit_item (as_list attribute))
           (public_attributes regex).
Proof.
  destruct regex as [cls attrs|items|t v].
  - apply refo_subpatterns_Instance.
  - reflexivity.
  - reflexivity.
Qed.

(** *** Sizes of the objects the loop reaches *)

Lemma size_lookup (name : string) (attrs : list (string * pyobj)) (v : pyobj)
  (cls : klass) :
  lookup name attrs = Some v -> size v < size (Instance cls attrs).
Proof.
  cbn [size]. induction attrs as [|[a w] attrs IH]; [discriminate|].
  cbn [lookup]. destruct (String.eqb a name).
  - intros [= ->]. lia.
  - intro Hl. specialize (IH Hl). lia.
Qed.

Lemma size_attribute (cls : klass) (attrs : list (string * pyobj))
  (attribute : pyobj) :
  In attribute (public_attributes (Instance cls attrs)) ->
  size attribute < size (Instance cls attrs).
Proof.
  cbn [public_attributes size].
  induction attrs as [|[a w] attrs IH]; [contradiction|].
  cbn [filter fst]. destruct (public a); cbn [map snd In].
  - intros [<-|Hin]; [lia|]. specialize (IH Hin). lia.
  - intro Hin. specialize (IH Hin). lia.
Qed.

Lemma size_item (attribute item : pyobj) :
  In item (as_list attribute) -> size item <= size attribute.
Proof.
  destruct attribute as [c args|items|t v]; cbn [as_list In].
  - intros [<-|[]]. lia.
  - cbn [size]. induction items as [|w items IH]; [contradiction|].
    intros [<-|Hin]; [lia|]. specialize (IH Hin). lia.
  - intros [<-|[]]. lia.
Qed.

(** One item adds nothing, or the decomposition of a smaller-or-equal
    object followed by that object. *)
Lemma visit_item_cases (item : pyobj) :
  visit_item item = [] \/
  exists y, visit_item item = refo_subpatterns y ++ [y] /\ size y <= size item.
Proof.
  unfold visit_item, unwrap_question.
  destruct (isinstance_Question item).
  - destruct item as [c args|items|t v]; cbn [getattr_obj]; auto.
    destruct (lookup "arg" args) as [v|] eqn:El; auto.
    destruct (isinstance_Pattern v); auto.
    right. exists v. split; [reflexivity|].
    apply (size_lookup _ _ _ c) in El. lia.
  - destruct (isinstance_Pattern item); eauto.
Qed.

Lemma ordered_block (y : pyobj) (rest : list pyobj) :
  ordered y ->
  (forall l1 x l2, rest = l1 ++ x :: l2 ->
     exists l0, l1 = l0 ++ refo_subpatterns x) ->
  forall l1 x l2, (refo_subpatterns y ++ [y]) ++ rest = l1 ++ x :: l2 ->
  exists l0, l1 = l0 ++ refo_subpatterns x.
Proof.
  intros Hy Hrest l1 x l2 Heq.
  rewrite <- app_assoc in Heq. cbn [app] in Heq.
  apply app_eq_app in Heq. destruct Heq as [m [[E1 E2]|[E1 E2]]].
  - (* [x] stands inside the decomposition of [y], or is [y] *)
    destruct m as [|z m]; cbn [app] in E2.
    + injection E2 as -> _. rewrite app_nil_r in E1.
      exists []. now subst.
    + injection E2 as -> _. apply (Hy _ _ _ E1).
  - (* [x] is [y], or stands after it *)
    destruct m as [|z m]; cbn [app] in E2.
    + injection E2 as -> _. rewrite app_nil_r in E1.
      exists []. now subst.
    + injection E2 as <- E2. apply Hrest in E2. destruct E2 as [l0 ->].
      exists (refo_subpatterns y ++ y :: l0). subst l1.
      rewrite <- !app_assoc. reflexivity.
Qed.

Lemma ordered_blocks (n : nat) (items : list pyobj) :
  (forall y, size y <= n -> ordered y) ->
  Forall (fun item => size item <= n) items ->
  forall rest,
  (forall l1 x l2, rest = l1 ++ x :: l2 ->
     exists l0, l1 = l0 ++ refo_subpatterns x) ->
  forall l1 x l2, flat_map visit_item items ++ rest = l1 ++ x :: l2 ->
  exists l0, l1 = l0 ++ refo_subpatterns x.
Proof.
  intros Hn Hitems. induction Hitems as [|item items Hitem _ IH];
    intros rest Hrest; [exact Hrest|].
  cbn [flat_map]. rewrite <- app_assoc.
  destruct (visit_item_cases item) as [->|[y [-> Hy]]].
  - cbn [app]. now apply IH.
  - apply ordered_block; [apply Hn; lia|]. now apply IH.
Qed.

Lemma ordered_all (n : nat) (o : pyobj) : size o <= n -> ordered o.
Proof.
  revert o. induction n as [|n IH]; intros o Hsize.
  - destruct o; cbn in Hsize; lia.
  - destruct o as [cls attrs|items|t v]; intros l1 x l2;
      try (cbn [refo_subpatterns]; now destruct l1).
    rewrite refo_subpatterns_unfold.
    destruct (isinstance_Particle (Instance cls attrs)); [now destruct l1|].
    assert (Hattrs : Forall (fun a => size a <= n)
                       (public_attributes (Instance cls attrs))).
    { apply Forall_forall. intros a Ha. apply size_attribute in Ha. lia. }
    revert l1 x l2. induction Hattrs as [|a attributes Ha _ IHa];
      [now intros [|]|].
    cbn [flat_map]. apply (ordered_blocks n); auto.
    apply Forall_forall. intros item Hitem. apply size_item in Hitem. lia.
Qed.

(** *** The decomposition of a Pattern Tree *)

Lemma PatternNode_nested_ind (P : PatternNode -> Prop) :
  (forall l, Forall P l -> P (Sequence l)) ->
  (forall q, P q -> P (Repetition q)) ->
  (forall q, P q -> P (Optional q)) ->
  (forall l, Forall P l -> P (Disjunction l)) ->
  (forall t c, P (AtomicPredicate t c)) ->
  P AtomicAny ->
  (forall n q, P q -> P (Particle n q)) ->
  forall p, P p.
Proof.
  intros HSequence HRepetition HOptional HDisjunction HPredicate HAny HParticle.
  fix IH 1. intros [l|q|q|l|t c| |n q].
  - apply HSequence. induction l as [|c l IHl]; constructor; [apply IH|exact IHl].
  - apply HRepetition, IH.
  - apply HOptional, IH.
  - apply HDisjunction.
    induction l as [|c l IHl]; constructor; [apply IH|exact IHl].
  - apply HPredicate.
  - apply HAny.
  - apply HParticle, IH.
Qed.

Lemma fragments_children (l : list PatternNode) :
  (fix each (l : list PatternNode) : list PatternNode :=
     match l with
     | [] => []
     | c :: l' =>
         match c with
         | Optional q => fragments q ++ [q]
         | _ => fragments c ++ [c]
         end ++ each l'
     end) l
  = flat_map visit_node l.
Proof.
  induction l as [|c l IH]; [reflexivity|].
  cbn [flat_map]. now rewrite IH.
Qed.

Lemma fragments_unfold (p : PatternNode) :
  fragments p
  = match p with
    | Sequence l | Disjunction l => flat_map visit_node l
    | Repetition q | Optional q => visit_node q
    | AtomicPredicate _ _ | AtomicAny | Particle _ _ => []
    end.
Proof.
  destruct p; try reflexivity; cbn [fragments]; apply fragments_children.
Qed.

Lemma encode_is_pattern (p : PatternNode) : isinstance_Pattern (encode p) = true.
Proof. now destruct p. Qed.

Lemma encode_as_list (p : PatternNode) : as_list (encode p) = [encode p].
Proof. now destruct p. Qed.

Lemma encode_is_question (p : PatternNode) :
  isinstance_Question (encode p)
  = match p with Optional _ => true | _ => false end.
Proof. now destruct p. Qed.

Lemma agrees_items (l : list PatternNode) :
  Forall agrees l ->
  flat_map visit_item (map encode l) = map encode (flat_map visit_node l).
Proof.
  induction 1 as [|c l [_ Hc] _ IH]; [reflexivity|].
  cbn [map flat_map]. now rewrite map_app, Hc, IH.
Qed.

Lemma visit_item_encode (p : PatternNode) :
  refo_subpatterns (encode p) = map encode (fragments p) ->
  (forall q, p = Optional q ->
     refo_subpatterns (encode q) = map encode (fragments q)) ->
  visit_item (encode p) = map encode (visit_node p).
Proof.
  intros Hp Hq. unfold visit_item, unwrap_question.
  rewrite encode_is_question.
  destruct p; cbn [visit_node];
    try (rewrite encode_is_pattern, Hp, map_app; reflexivity).
  cbn [encode getattr_obj lookup]. cbn [String.eqb Ascii.eqb Bool.eqb].
  rewrite encode_is_pattern, (Hq p eq_refl), map_app. reflexivity.
Qed.

Lemma agrees_all (p : PatternNode) : agrees p.
Proof.
  induction p as [l IH|q [IHq IHv]|q [IHq IHv]|l IH|t c| |n q _]
    using PatternNode_nested_ind.
  - assert (E : refo_subpatterns (encode (Sequence l))
                = map encode (fragments (Sequence l))).
    { rewrite refo_subpatterns_unfold, fragments_unfold.
      cbn. rewrite app_nil_r. now apply agrees_items. }
    split; [exact E|]. apply visit_item_encode; [exact E|discriminate].
  - assert (E : refo_subpatterns (encode (Repetition q))
                = map encode (fragments (Repetition q))).
    { rewrite refo_subpatterns_unfold, fragments_unfold.
      cbn. rewrite encode_as_list. cbn [flat_map].
      now rewrite !app_nil_r. }
    split; [exact E|]. apply visit_item_encode; [exact E|discriminate].
  - assert (E : refo_subpatterns (encode (Optional q))
                = map encode (fragments (Optional q))).
    { rewrite refo_subpatterns_unfold, fragments_unfold.
      cbn. rewrite encode_as_list. cbn [flat_map].
      now rewrite !app_nil_r. }
    split; [exact E|]. apply visit_item_encode; [exact E|].
    now intros q' [= <-].
  - assert (E : refo_subpatterns (encode (Disjunction l))
                = map encode (fragments (Disjunction l))).
    { rewrite refo_subpatterns_unfold, fragments_unfold.
      cbn. rewrite app_nil_r. now apply agrees_items. }
    split; [exact E|]. apply visit_item_encode; [exact E|discriminate].
  - assert (E : refo_subpatterns (encode (AtomicPredicate t c)) = [])
      by now destruct c.
    split; [exact E|]. apply visit_item_encode; [exact E|discriminate].
  - split; [reflexivity|]. apply visit_item_encode; [reflexivity|discriminate].
  - split; [reflexivity|]. apply visit_item_encode; [reflexivity|discriminate].
Qed.

Lemma plain_children (l : list PatternNode) :
  (fix all (l : list PatternNode) : bool :=
     match l with
     | [] => true
     | c :: l' => plain c && all l'
     end) l = forallb plain l.
Proof. induction l as [|c l IH]; [reflexivity|]. cbn. now rewrite IH. Qed.

Lemma nodes_children (l : list PatternNode) :
  (fix sum (l : list PatternNode) : nat :=
     match l with
     | [] => 0
     | c :: l' => nodes c + sum l'
     end) l = list_sum (map nodes l).
Proof. induction l as [|c l IH]; [reflexivity|]. cbn. now rewrite IH. Qed.

Lemma counted_items (l : list PatternNode) :
  Forall counted l -> forallb plain l = true ->
  List.length (flat_map visit_node l) = list_sum (map nodes l).
Proof.
  induction 1 as [|c l Hc _ IH]; [reflexivity|].
  cbn [forallb]. intro Hp. apply andb_true_iff in Hp as [Hpc Hpl].
  cbn [flat_map map list_sum]. rewrite length_app, (IH Hpl).
  destruct (Hc Hpc) as [_ ->]. reflexivity.
Qed.

Lemma counted_visit (p : PatternNode) :
  plain p = true ->
  List.length (fragments p) + 1 = nodes p ->
  List.length (visit_node p) = nodes p.
Proof.
  intros Hp Hn. destruct p; try discriminate;
    cbn [visit_node]; rewrite length_app; exact Hn.
Qed.

Lemma counted_all (p : PatternNode) : counted p.
Proof.
  induction p as [l IH|q IHq|q _|l IH|t c| |n q _]
    using PatternNode_nested_ind; intro Hp; try discriminate.
  - assert (E : List.length (fragments (Sequence l)) + 1 = nodes (Sequence l)).
    { cbn [plain] in Hp. rewrite plain_children in Hp.
      rewrite fragments_unfold. cbn [nodes]. rewrite nodes_children.
      rewrite (counted_items l IH Hp). lia. }
    split; [exact E|]. now apply counted_visit.
  - assert (E : List.length (fragments (Repetition q)) + 1
                = nodes (Repetition q)).
    { cbn [plain] in Hp. rewrite fragments_unfold. cbn [nodes].
      destruct (IHq Hp) as [_ ->]. lia. }
    split; [exact E|]. now apply counted_visit.
  - assert (E : List.length (fragments (Disjunction l)) + 1
                = nodes (Disjunction l)).
    { cbn [plain] in Hp. rewrite plain_children in Hp.
      rewrite fragments_unfold. cbn [nodes]. rewrite nodes_children.
      rewrite (counted_items l IH Hp). lia. }
    split; [exact E|]. now apply counted_visit.
  - split; reflexivity.
  - split; reflexivity.
Qed.

End Decomposition.

(** C6, as amended: the decomposition of a Pattern Tree is the
    bottom-up listing of the nodes below the root, atomic leaves and
    Particles included, an [Optional] child being replaced by its inner
    pattern and a [Particle] not being entered; wherever a fragment
    stands in a decomposition its own decomposition stands right before
    it; a tree without [Optional] and [Particle] yields as many
    fragments as it has nodes below the root; and a [Particle] yields
    the empty list. *)
Theorem refo_subpatterns_bottom_up :
  (forall p : PatternNode,
     refo_subpatterns (encode p) = map encode (fragments p)) /\
  (forall (regex : pyobj) l1 x l2,
     refo_subpatterns regex = l1 ++ x :: l2 ->
     exists l0, l1 = l0 ++ refo_subpatterns x) /\
  (forall p : PatternNode, plain p = true ->
     List.length (refo_subpatterns (encode p)) + 1 = nodes p) /\
  (forall regex : pyobj, isinstance_Particle regex = true ->
     refo_subpatterns regex = []).
Proof.
  repeat split.
  - intro p. apply agrees_all.
  - intros regex. apply (ordered_all (size regex)). apply Nat.le_refl.
  - intros p Hp. destruct (agrees_all p) as [-> _].
    rewrite length_map. now apply counted_all.
  - intros regex Hp. rewrite refo_subpatterns_unfold. now rewrite Hp.
Qed.

Lemma refo_subpatterns_bottom_up_witness :
  (exists l0,
     [encode (AtomicPredicate "is_noun" None)]
     = l0 ++ refo_subpatterns
               (encode (Repetition (AtomicPredicate "is_noun" None)))) /\
  List.length (refo_subpatterns (encode two_children)) + 1 = nodes two_children
  /\ refo_subpatterns (encode (Particle "Person" two_children)) = [].
Proof.
  destruct refo_subpatterns_bottom_up as [_ [Horder [Hcount Hparticle]]].
  split; [|split].
  - apply (Horder (encode two_children) _ _ [encode AtomicAny]). reflexivity.
  - apply Hcount. reflexivity.
  - apply Hparticle. reflexivity.
Defined.

(** C6 as stated fails: a sequence of one atom has no composite node
    below its root and yields one fragment, the atom; a sequence of an
    optional empty sequence has two and yields one, the empty
    sequence. *)
Lemma refo_subpatterns_not_composite_count :
  composite_below (Sequence [AtomicAny]) = 0 /\
  refo_subpatterns (encode (Sequence [AtomicAny])) = [encode AtomicAny] /\
  composite_below (Sequence [Optional (Sequence [])]) = 2 /\
  refo_subpatterns (encode (Sequence [Optional (Sequence [])]))
  = [encode (Sequence [])].
Proof. repeat split. Qed.

(** ** Properties of [compare_patterns] *)

(** One fragment per reference: an object that holds the same child
    under two public names yields it twice. *)
Lemma refo_subpatterns_two_references :
  refo_subpatterns
    (Instance (pattern_class "Star")
       [("arg", encode AtomicAny); ("greedy", Atom "bool" "True");
        ("x", encode AtomicAny)])
  = [encode AtomicAny; encode AtomicAny].
Proof. reflexivity. Qed.

Section Comparison.

Context `{PatternAlgebra}.

Lemma kind_eqb_eq (a b : kind) : kind_eqb a b = true <-> a = b.
Proof. destruct a, b; cbn; split; congruence. Qed.

Lemma klass_eqb_eq (a b : klass) : klass_eqb a b = true <-> a = b.
Proof.
  destruct a as [n k], b as [m j]. unfold klass_eqb. cbn.
  rewrite andb_true_iff, String.eqb_eq, kind_eqb_eq.
  split; [intros [-> ->]; reflexivity|intros [= -> ->]; auto].
Qed.

Lemma pytype_eqb_eq (a b : pytype) : pytype_eqb a b = true <-> a = b.
Proof.
  destruct a, b; cbn; try (split; congruence).
  - rewrite klass_eqb_eq. split; congruence.
  - rewrite String.eqb_eq. split; congruence.
Qed.

(** Two objects compare equal when they have the same type and the same
    rendering. *)
Lemma compare_patterns_spec (p q : pyobj) :
  compare_patterns p q = true <-> type p = type q /\ repr p = repr q.
Proof.
  unfold compare_patterns.
  destruct (pytype_eqb (type p) (type q)) eqn:E; cbn.
  - apply pytype_eqb_eq in E. rewrite String.eqb_eq. tauto.
  - split; [discriminate|]. intros [Ht _].
    apply pytype_eqb_eq in Ht. congruence.
Qed.

Lemma compare_patterns_refl (p : pyobj) : compare_patterns p p = true.
Proof. now apply compare_patterns_spec. Qed.

Lemma compare_patterns_sym (p q : pyobj) :
  compare_patterns p q = compare_patterns q p.
Proof.
  apply eq_true_iff_eq. rewrite !compare_patterns_spec.
  split; intros [-> ->]; auto.
Qed.

Lemma compare_patterns_trans (p q r : pyobj) :
  compare_patterns p q = true -> compare_patterns q r = true ->
  compare_patterns p r = true.
Proof.
  rewrite !compare_patterns_spec. intros [-> ->] [-> ->]. auto.
Qed.

End Comparison.

(** C10: [compare_patterns] is reflexive, symmetric and transitive. *)
Theorem compare_patterns_equivalence `{PatternAlgebra} :
  (forall p, compare_patterns p p = true) /\
  (forall p q, compare_patterns p q = compare_patterns q p) /\
  (forall p q r, compare_patterns p q = true -> compare_patterns q r = true ->
                 compare_patterns p r = true).
Proof.
  split; [|split].
  - apply compare_patterns_refl.
  - apply compare_patterns_sym.
  - apply compare_patterns_trans.
Qed.

Lemma compare_patterns_equivalence_witness :
  compare_patterns (around (encode AtomicAny)) (around (encode AtomicAny)) = true.
Proof.
  apply (proj2 (proj2 compare_patterns_equivalence)
           (around (encode AtomicAny)) (around (encode AtomicAny))
           (around (encode AtomicAny))); reflexivity.
Defined.

(** ** Properties of [remove_duplicates] *)

Section Deduplication.

Context {A : Type} (f : A -> A -> bool).

Lemma find_pattern_true (x : A) (l : list A) :
  find_pattern x l f = true <-> exists y, In y l /\ f x y = true.
Proof.
  induction l as [|i l IH]; cbn.
  - split; [discriminate|]. now intros [y [[] _]].
  - destruct (f x i) eqn:E.
    + split; [|reflexivity]. intros _. exists i. auto.
    + rewrite IH. split.
      * intros [y [Hy Hf]]. exists y. auto.
      * intros [y [[<-|Hy] Hf]]; [congruence|]. exists y. auto.
Qed.

Lemma find_pattern_false (x : A) (l : list A) :
  find_pattern x l f = false <-> forall y, In y l -> f x y = false.
Proof.
  rewrite <- not_true_iff_false, find_pattern_true. split.
  - intros Hn y Hy. apply not_true_iff_false. intro Hf. apply Hn. eauto.
  - intros Hall [y [Hy Hf]]. rewrite (Hall y Hy) in Hf. discriminate.
Qed.

Lemma firstn_seen (seen l : list A) :
  firstn (List.length seen) (seen ++ l) = seen.
Proof.
  rewrite firstn_app, Nat.sub_diag, firstn_all. cbn. apply app_nil_r.
Qed.

Lemma remove_duplicates_from (seen l : list A) :
  map snd
    (filter (fun e =>
               negb (find_pattern (snd e) (firstn (fst e) (seen ++ l)) f))
       (combine (seq (List.length seen) (List.length l)) l))
  = dedup_from f seen l.
Proof.
  revert seen. induction l as [|x l IH]; intro seen; [reflexivity|].
  cbn [List.length seq combine filter fst snd dedup_from].
  rewrite firstn_seen.
  specialize (IH (seen ++ [x])).
  rewrite <- app_assoc, length_app, Nat.add_comm in IH. cbn in IH.
  destruct (find_pattern x seen f); cbn [negb map snd]; now rewrite IH.
Qed.

Lemma remove_duplicates_dedup (l : list A) :
  remove_duplicates l f = dedup_from f [] l.
Proof. apply (remove_duplicates_from [] l). Qed.

Lemma dedup_from_idempotent (l seen seen' : list A) :
  (forall z, In z seen' -> In z seen) ->
  dedup_from f seen' (dedup_from f seen l) = dedup_from f seen l.
Proof.
  revert seen seen'. induction l as [|x l IH]; intros seen seen' Hsub;
    [reflexivity|].
  assert (Hsub' : forall z, In z (seen' ++ [x]) -> In z (seen ++ [x])).
  { intros z Hz. apply in_app_iff in Hz. apply in_app_iff.
    destruct Hz; auto. }
  cbn [dedup_from]. destruct (find_pattern x seen f) eqn:E.
  - apply IH. intros z Hz. apply in_app_iff. auto.
  - cbn [dedup_from].
    assert (E' : find_pattern x seen' f = false).
    { apply find_pattern_false. intros y Hy.
      apply (proj1 (find_pattern_false x seen) E). auto. }
    rewrite E'. f_equal. now apply IH.
Qed.

Lemma remove_duplicates_idempotent (l : list A) :
  remove_duplicates (remove_duplicates l f) f = remove_duplicates l f.
Proof.
  rewrite !remove_duplicates_dedup. now apply dedup_from_idempotent.
Qed.

(** An entry that is kept compares equal to nothing passed before. *)
Lemma dedup_from_fresh (l seen : list A) (q : A) :
  In q (dedup_from f seen l) -> forall z, In z seen -> f q z = false.
Proof.
  revert seen. induction l as [|x l IH]; intros seen; [contradiction|].
  cbn [dedup_from]. destruct (find_pattern x seen f) eqn:E.
  - intros Hq z Hz. apply (IH _ Hq). apply in_app_iff. auto.
  - intros [<-|Hq] z Hz.
    + now apply (proj1 (find_pattern_false _ _) E).
    + apply (IH _ Hq). apply in_app_iff. auto.
Qed.

Lemma dedup_from_pairs (l seen : list A) :
  ForallOrdPairs (fun p q => f q p = false) (dedup_from f seen l).
Proof.
  revert seen. induction l as [|x l IH]; intro seen; [constructor|].
  cbn [dedup_from]. destruct (find_pattern x seen f); [apply IH|].
  constructor; [|apply IH].
  apply Forall_forall. intros q Hq.
  apply (dedup_from_fresh _ _ _ Hq). apply in_app_iff. cbn. auto.
Qed.

(** *** Positions *)

Lemma kept_from_bounds (g : nat * A -> bool) (l : list A) (a i : nat) :
  In i (map fst (filter g (combine (seq a (List.length l)) l))) -> a <= i.
Proof.
  revert a. induction l as [|x l IH]; intro a; [contradiction|].
  cbn [List.length seq combine filter].
  destruct (g (a, x)); cbn [map fst In].
  - intros [<-|Hi]; [lia|]. apply IH in Hi. lia.
  - intro Hi. apply IH in Hi. lia.
Qed.

Lemma kept_from_sorted (g : nat * A -> bool) (l : list A) (a : nat) :
  StronglySorted lt (map fst (filter g (combine (seq a (List.length l)) l))).
Proof.
  revert a. induction l as [|x l IH]; intro a; [constructor|].
  cbn [List.length seq combine filter].
  destruct (g (a, x)); cbn [map fst]; [|apply IH].
  constructor; [apply IH|].
  apply Forall_forall. intros i Hi. apply kept_from_bounds in Hi. lia.
Qed.

Lemma enumerate_nth (l : list A) (a i : nat) (x : A) :
  In (i, x) (combine (seq a (List.length l)) l) <->
  a <= i /\ nth_error l (i - a) = Some x.
Proof.
  revert a. induction l as [|y l IH]; intro a.
  - cbn. split; [contradiction|]. intros [_ Hn]. now destruct (i - a).
  - cbn [List.length seq combine In]. rewrite IH. split.
    + intros [[= <- <-]|[Hle Hn]].
      * rewrite Nat.sub_diag. auto.
      * split; [lia|]. replace (i - a) with (S (i - S a)) by lia. exact Hn.
    + intros [Hle Hn]. destruct (i - a) as [|k] eqn:Ek.
      * left. injection Hn as ->. f_equal. lia.
      * right. split; [lia|]. replace (i - S a) with k by lia. exact Hn.
Qed.

Lemma kept_from_pointwise (g : nat * A -> bool) (l : list A) (a : nat) :
  Forall2 (fun i x => In (i, x) (combine (seq a (List.length l)) l))
    (map fst (filter g (combine (seq a (List.length l)) l)))
    (map snd (filter g (combine (seq a (List.length l)) l))).
Proof.
  assert (G : forall m : list (nat * A),
             (forall e, In e m -> In e (combine (seq a (List.length l)) l)) ->
             Forall2 (fun i x => In (i, x) (combine (seq a (List.length l)) l))
               (map fst (filter g m)) (map snd (filter g m))).
  { induction m as [|[i x] m IHm]; intro Hm; [constructor|].
    cbn [filter]. destruct (g (i, x)); cbn [map fst snd].
    - constructor; [apply Hm; now left|]. apply IHm.
      intros e He. apply Hm. now right.
    - apply IHm. intros e He. apply Hm. now right. }
  apply G. auto.
Qed.

Lemma firstn_nth (l : list A) (i : nat) (y : A) :
  In y (firstn i l) <-> exists j, j < i /\ nth_error l j = Some y.
Proof.
  revert i. induction l as [|x l IH]; intro i.
  - rewrite firstn_nil. split; [contradiction|].
    intros [j [_ Hj]]. now destruct j.
  - destruct i as [|i]; cbn [firstn In].
    + split; [contradiction|]. intros [j [Hj _]]. lia.
    + rewrite IH. split.
      * intros [<-|[j [Hj Hn]]]; [exists 0|exists (S j)]; split; auto; lia.
      * intros [[|j] [Hj Hn]]; [left; now injection Hn|right].
        exists j. split; [lia|exact Hn].
Qed.

(** The kept positions increase, the result holds the entries at these
    positions, and a position is kept exactly when [f] finds nothing
    for its entry among the entries before it. *)
Lemma remove_duplicates_positions (l : list A) :
  StronglySorted lt (kept_positions f l) /\
  Forall2 (fun i x => nth_error l i = Some x)
    (kept_positions f l) (remove_duplicates l f) /\
  (forall i, In i (kept_positions f l) <->
     exists x, nth_error l i = Some x /\
       forall j y, j < i -> nth_error l j = Some y -> f x y = false).
Proof.
  unfold kept_positions, remove_duplicates, enumerate. split; [|split].
  - apply kept_from_sorted.
  - eapply Forall2_impl; [|apply kept_from_pointwise].
    intros i x Hin. apply enumerate_nth in Hin.
    now rewrite Nat.sub_0_r in Hin.
  - intro i. rewrite in_map_iff. split.
    + intros [[i' x] [<- Hin]]. apply filter_In in Hin as [Hin Hg].
      cbn [fst snd] in *. apply enumerate_nth in Hin as [_ Hn].
      rewrite Nat.sub_0_r in Hn. exists x. split; [exact Hn|].
      intros j y Hj Hy. apply negb_true_iff in Hg.
      apply (proj1 (find_pattern_false _ _) Hg).
      apply firstn_nth. eauto.
    + intros [x [Hn Hall]]. exists (i, x). split; [reflexivity|].
      apply filter_In. split.
      * apply enumerate_nth. rewrite Nat.sub_0_r. split; [lia|exact Hn].
      * cbn [fst snd]. apply negb_true_iff. apply find_pattern_false.
        intros y Hy. apply firstn_nth in Hy as [j [Hj Hy]]. eauto.
Qed.

End Deduplication.

Section DeduplicationOfPatterns.

Context `{PatternAlgebra}.

Lemma copies_seen (l seen : list pyobj) (x : pyobj) :
  (exists z, In z seen /\ compare_patterns x z = true) ->
  copies x (dedup_from compare_patterns seen l) = 0.
Proof.
  unfold copies. revert seen. induction l as [|h l IH]; intros seen Hseen;
    [reflexivity|].
  assert (Hnext : exists z, In z (seen ++ [h]) /\ compare_patterns x z = true).
  { destruct Hseen as [z [Hz Hx]]. exists z. split; [|exact Hx].
    apply in_app_iff. auto. }
  cbn [dedup_from]. destruct (find_pattern h seen compare_patterns) eqn:E.
  - now apply IH.
  - cbn [filter]. destruct (compare_patterns x h) eqn:Exh.
    + exfalso. destruct Hseen as [z [Hz Hx]].
      pose proof (proj1 (find_pattern_false _ _ _) E z Hz) as Hhz.
      rewrite compare_patterns_sym in Exh.
      rewrite (compare_patterns_trans _ _ _ Exh Hx) in Hhz. discriminate.
    + now apply IH.
Qed.

Lemma copies_unseen (l seen : list pyobj) (x : pyobj) :
  (forall z, In z seen -> compare_patterns x z = false) ->
  (exists y, In y l /\ compare_patterns x y = true) ->
  copies x (dedup_from compare_patterns seen l) = 1.
Proof.
  revert seen. induction l as [|h l IH]; intros seen Hseen [y [Hy Hxy]];
    [contradiction|].
  cbn [dedup_from]. destruct (compare_patterns x h) eqn:Exh.
  - assert (E : find_pattern h seen compare_patterns = false).
    { apply find_pattern_false. intros z Hz.
      destruct (compare_patterns h z) eqn:Ehz; [|reflexivity].
      specialize (Hseen z Hz).
      rewrite (compare_patterns_trans _ _ _ Exh Ehz) in Hseen.
      discriminate. }
    rewrite E. unfold copies. cbn [filter]. rewrite Exh. cbn [List.length].
    f_equal. apply copies_seen. exists h. split; [|exact Exh].
    apply in_app_iff. cbn. auto.
  - assert (Hnext : forall z, In z (seen ++ [h]) -> compare_patterns x z = false).
    { intros z Hz. apply in_app_iff in Hz as [Hz|[<-|[]]]; auto. }
    assert (Hl : exists y, In y l /\ compare_patterns x y = true).
    { destruct Hy as [<-|Hy]; [congruence|]. eauto. }
    destruct (find_pattern h seen compare_patterns).
    + now apply IH.
    + unfold copies. cbn [filter]. rewrite Exh. now apply IH.
Qed.

(** Every entry of the list has exactly one equal in the result. *)
Lemma remove_duplicates_one (l : list pyobj) (x : pyobj) :
  (exists y, In y l /\ compare_patterns x y = true) ->
  copies x (remove_duplicates l compare_patterns) = 1.
Proof.
  rewrite remove_duplicates_dedup. apply copies_unseen. contradiction.
Qed.

Lemma ordered_pairs_impl {B : Type} (R S : B -> B -> Prop) (l : list B) :
  (forall a b, R a b -> S a b) -> ForallOrdPairs R l -> ForallOrdPairs S l.
Proof.
  intro HRS. induction 1 as [|a l Ha _ IH]; constructor; auto.
  eapply Forall_impl; [|exact Ha]. auto.
Qed.

Lemma remove_duplicates_pairs (l : list pyobj) :
  ForallOrdPairs (fun p q => compare_patterns p q = false)
    (remove_duplicates l compare_patterns).
Proof.
  rewrite remove_duplicates_dedup.
  eapply ordered_pairs_impl; [|apply dedup_from_pairs].
  intros p q Hqp. now rewrite compare_patterns_sym.
Qed.

End DeduplicationOfPatterns.

(** ** The registry *)

Section Registry.

Context `{PatternAlgebra} `{Collaborators}.

(** *** The sort *)

Lemma insert_rule_perm (r : Rule) (s : list Rule) :
  Permutation (r :: s) (insert_rule r s).
Proof.
  induction s as [|x s IH]; [reflexivity|].
  cbn [insert_rule]. destruct (weight r <? weight x)%Z; [|reflexivity].
  rewrite perm_swap. now constructor.
Qed.

Lemma sort_rules_perm (l : list Rule) : Permutation l (sort_rules l).
Proof.
  induction l as [|r l IH]; [reflexivity|].
  cbn [sort_rules fold_right]. rewrite <- insert_rule_perm. now constructor.
Qed.

Lemma insert_rule_sorted (r : Rule) (s : list Rule) :
  StronglySorted descending s -> StronglySorted descending (insert_rule r s).
Proof.
  induction 1 as [|x s Hs IH Hx]; [repeat constructor|].
  cbn [insert_rule]. destruct (weight r <? weight x)%Z eqn:E.
  - apply Z.ltb_lt in E. constructor; [exact IH|].
    rewrite <- insert_rule_perm. constructor; [unfold descending; lia|exact Hx].
  - apply Z.ltb_ge in E. constructor; [now constructor|].
    constructor; [exact E|].
    eapply Forall_impl; [|exact Hx]. unfold descending. intros; lia.
Qed.

Lemma sort_rules_sorted (l : list Rule) :
  StronglySorted descending (sort_rules l).
Proof.
  induction l as [|r l IH]; [constructor|]. now apply insert_rule_sorted.
Qed.

Lemma insert_rule_stable (w : Z) (r : Rule) (s : list Rule) :
  filter (fun x => (weight x =? w)%Z) (insert_rule r s)
  = filter (fun x => (weight x =? w)%Z) (r :: s).
Proof.
  induction s as [|x s IH]; [reflexivity|].
  cbn [insert_rule]. destruct (weight r <? weight x)%Z eqn:E; [|reflexivity].
  apply Z.ltb_lt in E. cbn [filter] in *. rewrite IH.
  destruct (weight r =? w)%Z eqn:Er, (weight x =? w)%Z eqn:Ex; try reflexivity.
  apply Z.eqb_eq in Er, Ex. lia.
Qed.

(** Rules of equal weight keep their order. *)
Lemma sort_rules_stable (w : Z) (l : list Rule) :
  filter (fun x => (weight x =? w)%Z) (sort_rules l)
  = filter (fun x => (weight x =? w)%Z) l.
Proof.
  induction l as [|r l IH]; [reflexivity|].
  cbn [sort_rules fold_right]. rewrite insert_rule_stable.
  cbn [filter]. fold (sort_rules l). now rewrite IH.
Qed.

(** *** The first rule that applies, in the sorted list *)

Variable m : Rule -> bool.

Lemma find_insert_rule (a : Rule) (s : list Rule) :
  StronglySorted descending s ->
  find m (insert_rule a s)
  = if m a then
      match find m s with
      | Some r => if (weight a <? weight r)%Z then Some r else Some a
      | None => Some a
      end
    else find m s.
Proof.
  induction 1 as [|x s Hs IH Hx].
  - cbn. now destruct (m a).
  - cbn [insert_rule]. destruct (weight a <? weight x)%Z eqn:E.
    + cbn [find]. destruct (m x) eqn:Ex.
      * rewrite E. now destruct (m a).
      * exact IH.
    + change (find m (a :: x :: s)) with (if m a then Some a else find m (x :: s)).
      destruct (m a); [|reflexivity].
      destruct (find m (x :: s)) as [r|] eqn:Ef; [|reflexivity].
      assert (Hr : descending x r).
      { apply find_some in Ef as [[<-|Hin] _]; [unfold descending; lia|].
        now apply (proj1 (Forall_forall _ _) Hx). }
      apply Z.ltb_ge in E. unfold descending in Hr.
      destruct (weight a <? weight r)%Z eqn:E'; [|reflexivity].
      apply Z.ltb_lt in E'. lia.
Qed.

Lemma find_sort_rules (l : list Rule) : find m (sort_rules l) = best m l.
Proof.
  induction l as [|a l IH]; [reflexivity|].
  cbn [sort_rules fold_right best]. fold (sort_rules l).
  rewrite find_insert_rule by apply sort_rules_sorted. now rewrite IH.
Qed.

Lemma best_none (l : list Rule) :
  best m l = None <-> forall r, In r l -> m r = false.
Proof.
  induction l as [|a l IH]; cbn [best].
  - split; [contradiction|reflexivity].
  - destruct (m a) eqn:Ea.
    + split.
      * destruct (best m l) as [r|]; [destruct (weight a <? weight r)%Z|];
          discriminate.
      * intro Hall. specialize (Hall a (or_introl eq_refl)). congruence.
    + rewrite IH. split.
      * intros Hall r [<-|Hr]; auto.
      * intros Hall r Hr. apply Hall. now right.
Qed.

(** The best m rule stands in the list after rules that apply only with a
    smaller weight and before rules that apply with no greater one. *)
Lemma best_split (l : list Rule) (r : Rule) :
  best m l = Some r ->
  exists l1 l2,
    l = l1 ++ r :: l2 /\ m r = true /\
    (forall r', In r' l1 -> m r' = true -> (weight r' < weight r)%Z) /\
    (forall r', In r' l2 -> m r' = true -> (weight r' <= weight r)%Z).
Proof.
  revert r. induction l as [|a l IH]; intro r; [discriminate|].
  cbn [best]. destruct (m a) eqn:Ea.
  - destruct (best m l) as [r0|] eqn:Eb.
    + destruct (IH r0 eq_refl) as [l1 [l2 [-> [Hm [H1 H2]]]]].
      destruct (weight a <? weight r0)%Z eqn:E; intros [= <-].
      * apply Z.ltb_lt in E. exists (a :: l1), l2.
        repeat split; auto. intros r' [<-|Hr'] Hmr'; auto.
      * apply Z.ltb_ge in E. exists [], (l1 ++ r0 :: l2).
        repeat split; auto; [contradiction|].
        intros r' Hr' Hmr'. apply in_app_iff in Hr' as [Hr'|[<-|Hr']].
        -- specialize (H1 r' Hr' Hmr'). lia.
        -- exact E.
        -- specialize (H2 r' Hr' Hmr'). lia.
    + intros [= <-]. exists [], l. repeat split; auto; [contradiction|].
      intros r' Hr' Hmr'.
      rewrite (proj1 (best_none l) Eb r' Hr') in Hmr'. discriminate.
  - intro Hb. destruct (IH r Hb) as [l1 [l2 [-> [Hm [H1 H2]]]]].
    exists (a :: l1), l2. repeat split; auto.
    intros r' [<-|Hr'] Hmr'; [congruence|auto].
Qed.

End Registry.

(** ** The matching pipeline *)

Section Pipeline.

Context `{PatternAlgebra} `{Collaborators}.

Lemma yielded_try_rules (self : QuepyApp) (rs : list Rule) (words : list Word) :
  yielded (generate self (try_rules rs words))
  = flat_map (fun r => match produced self words r with
                       | Some y => [y]
                       | None => []
                       end) rs.
Proof.
  induction rs as [|r rs IH]; [reflexivity|].
  cbn [try_rules flat_map]. unfold produced.
  destruct (get_interpretation r words) as [[e|] u]; cbn [generate].
  - destruct (get_code e (language self)) as [t q]. cbn. now rewrite IH.
  - exact IH.
Qed.

Lemma raised_try_rules (self : QuepyApp) (rs : list Rule) (words : list Word) :
  raised (generate self (try_rules rs words)) = None.
Proof.
  induction rs as [|r rs IH]; [reflexivity|].
  cbn [try_rules]. destruct (get_interpretation r words) as [[e|] u];
    cbn [generate]; [|exact IH].
  destruct (get_code e (language self)) as [t q]. exact IH.
Qed.

(** What the loop of [get_query] returns, from the whole run of the
    generator: the first value yielded, else the exception, else the
    triple of [None]. *)
Lemma first_answer_yielded (g : Gen (string * string * option Userdata)) :
  snd (first_answer g)
  = match yielded g with
    | y :: _ => inr (answer_of y)
    | [] => match raised g with
            | Some e => inl e
            | None => inr (None, None, None)
            end
    end.
Proof.
  induction g as [|e|eff k IH|[[t q] u] k IH]; try reflexivity.
  cbn [first_answer yielded raised]. destruct (first_answer k). exact IH.
Qed.

Lemma get_queries_tagged (self : QuepyApp) (question : string)
  (words : list Word) :
  tagger self (encoding_flexible_conversion question) = inr words ->
  get_queries self question
  = Do (Tagging (encoding_flexible_conversion question))
      (Do (Logging DEBUG (TaggedQuestion words))
         (generate self (try_rules (rules self) words))).
Proof.
  unfold get_queries, _iter_compiled_forms. now intros ->.
Qed.

Lemma produced_matches (self : QuepyApp) (words : list Word) (r : Rule) :
  matches words r = match produced self words r with
                    | Some _ => true
                    | None => false
                    end.
Proof.
  unfold matches, produced.
  destruct (get_interpretation r words) as [[e|] u]; [|reflexivity].
  now destruct (get_code e (language self)).
Qed.

Lemma yielded_none (self : QuepyApp) (rs : list Rule) (words : list Word) :
  (forall r, In r rs -> matches words r = false) ->
  yielded (generate self (try_rules rs words)) = [].
Proof.
  rewrite yielded_try_rules. induction rs as [|r rs IH]; [reflexivity|].
  intro Hall. cbn [flat_map]. rewrite IH by (intros; apply Hall; now right).
  specialize (Hall r (or_introl eq_refl)).
  rewrite (produced_matches self) in Hall.
  now destruct (produced self words r).
Qed.

Lemma yielded_first (self : QuepyApp) (rs : list Rule) (words : list Word)
  (r : Rule) :
  find (matches words) rs = Some r ->
  exists y rest, produced self words r = Some y /\
    yielded (generate self (try_rules rs words)) = y :: rest.
Proof.
  rewrite yielded_try_rules. induction rs as [|a rs IH]; [discriminate|].
  cbn [find flat_map]. rewrite (produced_matches self).
  destruct (produced self words a) as [y|] eqn:Ea.
  - intros [= <-]. exists y. eexists. split; [exact Ea|reflexivity].
  - intro Hf. destruct (IH Hf) as [y [rest [Hp Hy]]].
    exists y, rest. split; [exact Hp|exact Hy].
Qed.

Lemma sanitize_without_quotes (question : string) :
  PyStr.contains PyStr.dquote question = false ->
  question_sanitize question = question.
Proof.
  intro Hc. rewrite question_sanitize_expand. now apply expand_fixed.
Qed.

End Pipeline.

(** ** The claims on the registry and the pipeline *)

Section Names.

Lemma insert_name_head (a b : string) (l : list string) :
  alphabetical b a -> HdRel alphabetical b l ->
  HdRel alphabetical b (insert_name a l).
Proof.
  intros Hba [|c rest Hbc]; cbn [insert_name]; [now constructor|].
  destruct (a <=? c)%string; now constructor.
Qed.

Lemma insert_name_sorted (a : string) (l : list string) :
  Sorted alphabetical l -> Sorted alphabetical (insert_name a l).
Proof.
  induction 1 as [|b l Hl IH Hb]; [repeat constructor|].
  cbn [insert_name]. destruct (a <=? b)%string eqn:E.
  - constructor; [now constructor|]. now constructor.
  - constructor; [exact IH|]. apply insert_name_head; [|exact Hb].
    destruct (String.leb_total a b) as [Hab|Hba]; [congruence|exact Hba].
Qed.

(** [dir] lists the names of a module in alphabetical order, whatever
    the order they were bound in. *)
Lemma dir_sorted {V : Type} (m : PyModule V) : Sorted alphabetical (dir m).
Proof.
  unfold dir, sorted_names.
  induction (nodup string_dec (map fst m)) as [|a l IH]; [constructor|].
  now apply insert_name_sorted.
Qed.

End Names.

(** C7: once the application is built, no two entries of its partial
    rules compare equal, and the entries are those of the list of all
    rules' wrapped fragments that stand at increasing positions, a
    position being kept exactly when no entry before it compares equal
    to its own. *)
Theorem partial_rules_first_occurrences `{PatternAlgebra} `{Collaborators}
  (parsing : PyModule Element) (settings_module settings : PyModule PyValue)
  (app : QuepyApp) :
  snd (__init__ parsing settings_module settings) = inr app ->
  let candidates :=
    flat_map (fun rule => map anywhere (refo_subpatterns (regex rule)))
      (get_rules parsing) in
  ForallOrdPairs (fun p q => compare_patterns p q = false) (partial_rules app)
  /\ exists positions,
       StronglySorted lt positions /\
       Forall2 (fun i p => nth_error candidates i = Some p)
         positions (partial_rules app) /\
       forall i, In i positions <->
         exists p, nth_error candidates i = Some p /\
           forall j q, j < i -> nth_error candidates j = Some q ->
                       compare_patterns p q = false.
Proof.
  intros Hinit candidates. revert Hinit. unfold __init__.
  destruct (negb (truthy (getattr_default settings_module "LANGUAGE" VNone)));
    [discriminate|].
  cbn [snd]. intros [= <-]. cbn [partial_rules].
  unfold get_partial_rules. fold candidates. split.
  - apply remove_duplicates_pairs.
  - exists (kept_positions compare_patterns candidates).
    apply remove_duplicates_positions.
Qed.

Lemma partial_rules_first_occurrences_witness :
  exists app : QuepyApp,
    snd (__init__ zeta_alpha english []) = inr app /\
    partial_rules app = [around (encode AtomicAny)] /\
    ForallOrdPairs (fun p q => compare_patterns p q = false) (partial_rules app).
Proof.
  eexists. split; [reflexivity|]. split; [reflexivity|].
  apply (partial_rules_first_occurrences zeta_alpha english [] _ eq_refl).
Defined.

(** C8: removing duplicates from the result of [remove_duplicates]
    changes nothing, and when an entry of one list and an entry of
    another compare equal, the result for the two lists put together
    holds exactly one entry that compares equal to them. *)
Theorem remove_duplicates_twice `{PatternAlgebra} :
  (forall l : list pyobj,
     remove_duplicates (remove_duplicates l compare_patterns) compare_patterns
     = remove_duplicates l compare_patterns) /\
  (forall (l1 l2 : list pyobj) (x y : pyobj),
     In x l1 -> In y l2 -> compare_patterns x y = true ->
     copies x (remove_duplicates (l1 ++ l2) compare_patterns) = 1 /\
     copies y (remove_duplicates (l1 ++ l2) compare_patterns) = 1).
Proof.
  split.
  - intro l. apply remove_duplicates_idempotent.
  - intros l1 l2 x y Hx Hy Hxy. split; apply remove_duplicates_one.
    + exists x. split; [apply in_app_iff; auto|apply compare_patterns_refl].
    + exists y. split; [apply in_app_iff; auto|apply compare_patterns_refl].
Qed.

Lemma remove_duplicates_twice_witness :
  copies (around (encode AtomicAny))
    (remove_duplicates
       ([around (encode AtomicAny)]
        ++ [around (encode (Sequence [])); around (encode AtomicAny)])
       compare_patterns) = 1.
Proof.
  apply (proj2 remove_duplicates_twice
           [around (encode AtomicAny)]
           [around (encode (Sequence [])); around (encode AtomicAny)]
           (around (encode AtomicAny)) (around (encode AtomicAny))).
  - left. reflexivity.
  - right. left. reflexivity.
  - reflexivity.
Defined.

(** C9: without a [LANGUAGE] in the settings module, building the
    application raises [ValueError] and returns no application. *)
Theorem init_missing_language `{PatternAlgebra} `{Collaborators}
  (parsing : PyModule Element) (settings_module settings : PyModule PyValue) :
  getattr settings_module "LANGUAGE" = None ->
  snd (__init__ parsing settings_module settings)
  = inl (ValueError "Missing configuration for language").
Proof.
  intro Hl. unfold __init__, getattr_default. now rewrite Hl.
Qed.

Lemma init_missing_language_witness :
  snd (__init__ zeta_alpha [("DEBUG", VBool true)] [])
  = inl (ValueError "Missing configuration for language").
Proof.
  apply (init_missing_language zeta_alpha [("DEBUG", VBool true)] []).
  reflexivity.
Defined.

(** C3: with a tagger that raises the tagging error on every text,
    [get_queries] yields nothing and raises nothing; all it does is
    hand the text to the tagger and log one warning about it. *)
Theorem get_queries_tagging_error `{PatternAlgebra} `{Collaborators}
  (self : QuepyApp) (question : string) :
  (forall text, tagger self text = inl TaggingError) ->
  yielded (get_queries self question) = [] /\
  raised (get_queries self question) = None /\
  effects (get_queries self question)
  = [Tagging (encoding_flexible_conversion question);
     Logging WARNING (CantParse (encoding_flexible_conversion question))].
Proof.
  intro Htag. unfold get_queries, _iter_compiled_forms.
  rewrite Htag. repeat split.
Qed.

Lemma get_queries_tagging_error_witness :
  exists app : @QuepyApp failing_tagger,
    snd (@__init__ rendered failing_tagger [] english []) = inr app /\
    yielded (get_queries app "Who is Bob?") = [] /\
    raised (get_queries app "Who is Bob?") = None /\
    effects (get_queries app "Who is Bob?")
    = [Tagging "Who is Bob?"; Logging WARNING (CantParse "Who is Bob?")].
Proof.
  eexists. split; [reflexivity|].
  apply (@get_queries_tagging_error rendered failing_tagger).
  intro text. reflexivity.
Defined.

Section Answers.

Context `{PatternAlgebra} `{Collaborators}.

(** A run of [get_queries] that raises has yielded nothing: only the
    tagger raises, before any rule is tried. *)
Lemma get_queries_raised (self : QuepyApp) (question : string) (e : Exn) :
  raised (get_queries self question) = Some e ->
  yielded (get_queries self question) = [].
Proof.
  unfold get_queries, _iter_compiled_forms.
  destruct (tagger self (encoding_flexible_conversion question)) as [[]|words];
    try reflexivity.
  cbn [generate raised]. now rewrite raised_try_rules.
Qed.

Lemma first_answer_get_queries (self : QuepyApp) (question : string) :
  snd (first_answer (get_queries self question))
  = match raised (get_queries self question) with
    | Some e => inl e
    | None => inr (first_or_none (yielded (get_queries self question)))
    end.
Proof.
  rewrite first_answer_yielded.
  destruct (raised (get_queries self question)) as [e|] eqn:Er.
  - now rewrite (get_queries_raised _ _ _ Er).
  - now destruct (yielded (get_queries self question)).
Qed.

Lemma get_query_tagged (self : QuepyApp) (question : string)
  (words : list Word) :
  tagger self (encoding_flexible_conversion (question_sanitize question))
  = inr words ->
  snd (get_query self question)
  = inr (first_or_none (yielded (generate self (try_rules (rules self) words)))).
Proof.
  intro Htag. unfold get_query. rewrite first_answer_get_queries.
  rewrite (get_queries_tagged _ _ _ Htag). cbn [raised yielded].
  now rewrite raised_try_rules.
Qed.

End Answers.

(** C2, as amended: [get_query] returns the first element of the
    sequence [get_queries] produces for the sanitized question ([(None,
    None, None)] when that sequence is empty, the exception when the
    tagger raised another error than the tagging error); for a question
    without double quote this is the sequence for the question itself;
    and when the tagger tags the sanitized question and no rule gives
    an interpretation, the sequence is empty and [get_query] returns
    [(None, None, None)]. *)
Theorem get_query_first_of_sanitized `{PatternAlgebra} `{Collaborators}
  (self : QuepyApp) (question : string) :
  snd (get_query self question)
  = match raised (get_queries self (question_sanitize question)) with
    | Some e => inl e
    | None =>
        inr (first_or_none
               (yielded (get_queries self (question_sanitize question))))
    end
  /\ (PyStr.contains PyStr.dquote question = false ->
      get_queries self (question_sanitize question)
      = get_queries self question)
  /\ (forall words,
        tagger self (encoding_flexible_conversion (question_sanitize question))
        = inr words ->
        (forall r, In r (rules self) -> matches words r = false) ->
        yielded (get_queries self (question_sanitize question)) = [] /\
        snd (get_query self question) = inr (None, None, None)).
Proof.
  split; [|split].
  - apply first_answer_get_queries.
  - intro Hc. now rewrite sanitize_without_quotes.
  - intros words Htag Hnone. rewrite (get_query_tagged _ _ _ Htag).
    rewrite (get_queries_tagged _ _ _ Htag). cbn [yielded].
    now rewrite (yielded_none _ _ _ Hnone).
Qed.

Lemma get_query_first_of_sanitized_witness :
  exists app : QuepyApp,
    snd (__init__ escaped_only english []) = inr app /\
    get_queries app (question_sanitize "Who is Bob?")
    = get_queries app "Who is Bob?" /\
    yielded (get_queries app (question_sanitize "Who is Bob?")) = [] /\
    snd (get_query app "Who is Bob?") = inr (None, None, None).
Proof.
  eexists. split; [reflexivity|]. split.
  - apply get_query_first_of_sanitized. reflexivity.
  - apply (proj2 (proj2 (@get_query_first_of_sanitized rendered stubs _
                           "Who is Bob?"))
             ([("Who is Bob?", "NN")] : list (@Word stubs))).
    + reflexivity.
    + intros r [<-|[]]. reflexivity.
Defined.

(** C2 as stated fails: for the question made of one double quote,
    [get_queries] yields nothing, the only rule asking for a backslash,
    and [get_query], which sanitizes the question first, returns that
    rule's answer. *)
Lemma get_query_not_first_of_get_queries :
  exists app : QuepyApp,
    snd (__init__ escaped_only english []) = inr app /\
    yielded (get_queries app (String PyStr.dquote "")) = [] /\
    raised (get_queries app (String PyStr.dquote "")) = None /\
    snd (get_query app (String PyStr.dquote ""))
    = inr (Some "x", Some "escaped", None).
Proof.
  eexists. split; [reflexivity|]. repeat split.
Qed.

(** C1, as amended: in an application built from a parsing module,
    when the tagger tags the question and some discovered rule gives an
    interpretation of the words, [get_query] returns what [get_queries]
    produces for a rule that gives one, that has the greatest weight
    among those that do, and that is the first of that weight in the
    order of discovery; this order is the one of [get_rules], which goes
    through the names of the module in alphabetical order. *)
Theorem get_query_highest_weight `{PatternAlgebra} `{Collaborators}
  (parsing : PyModule Element) (settings_module settings : PyModule PyValue)
  (app : QuepyApp) (question : string) (words : list Word) :
  snd (__init__ parsing settings_module settings) = inr app ->
  tagger app (encoding_flexible_conversion (question_sanitize question))
  = inr words ->
  (exists r0, In r0 (get_rules parsing) /\ matches words r0 = true) ->
  Sorted alphabetical (dir parsing) /\
  get_rules parsing = collect_rules (dir parsing) parsing /\
  exists l1 r l2 y,
    get_rules parsing = l1 ++ r :: l2 /\
    matches words r = true /\
    (forall r', In r' l1 -> matches words r' = true ->
                (weight r' < weight r)%Z) /\
    (forall r', In r' l2 -> matches words r' = true ->
                (weight r' <= weight r)%Z) /\
    produced app words r = Some y /\
    snd (get_query app question) = inr (answer_of y).
Proof.
  intros Hinit Htag [r0 [Hin0 Hm0]].
  split; [apply dir_sorted|]. split; [reflexivity|].
  rewrite (get_query_tagged _ _ _ Htag).
  revert Hinit. unfold __init__.
  destruct (negb (truthy (getattr_default settings_module "LANGUAGE" VNone)));
    [discriminate|].
  cbn [snd]. intros [= <-]. cbn [rules].
  destruct (best (matches words) (get_rules parsing)) as [r|] eqn:Eb.
  - destruct (best_split _ _ _ Eb) as [l1 [l2 [Hl [Hm [H1 H2]]]]].
    rewrite <- find_sort_rules in Eb.
    match goal with
    | |- context [generate ?a _] =>
        destruct (yielded_first a _ _ _ Eb) as [y [rest [Hp Hy]]]
    end.
    exists l1, r, l2, y. rewrite Hy. repeat split; auto.
  - rewrite (proj1 (best_none _ _) Eb r0 Hin0) in Hm0. discriminate.
Qed.

Lemma get_query_highest_weight_witness :
  exists app : QuepyApp,
    snd (__init__ light_heavy english []) = inr app /\
    exists l1 r l2 y,
      get_rules light_heavy = l1 ++ r :: l2 /\
      matches [("Who is Bob?", "NN")] r = true /\
      (forall r', In r' l1 -> matches [("Who is Bob?", "NN")] r' = true ->
                  (weight r' < weight r)%Z) /\
      (forall r', In r' l2 -> matches [("Who is Bob?", "NN")] r' = true ->
                  (weight r' <= weight r)%Z) /\
      produced app [("Who is Bob?", "NN")] r = Some y /\
      snd (get_query app "Who is Bob?") = inr (answer_of y).
Proof.
  eexists. split; [reflexivity|].
  refine (proj2 (proj2 (@get_query_highest_weight rendered stubs
                          light_heavy english [] _ "Who is Bob?"
                          ([("Who is Bob?", "NN")] : list (@Word stubs))
                          eq_refl eq_refl _))).
  exists (echo_rule "Heavy" 10). split; [right; left|]; reflexivity.
Defined.

(** C1 as stated fails on the order of declaration: of two rules of
    equal weight that both apply, [Zeta] declared before [Alpha], the
    answer returned is the one of [Alpha]. *)
Lemma get_query_not_declaration_order :
  exists app : QuepyApp,
    snd (__init__ zeta_alpha english []) = inr app /\
    map fst zeta_alpha = ["Zeta"; "Alpha"; "QuestionTemplate"; "__name__"] /\
    produced app [("hi", "NN")] (echo_rule "Zeta" 1)
    = Some ("x", "Zeta:hi", None) /\
    produced app [("hi", "NN")] (echo_rule "Alpha" 1)
    = Some ("x", "Alpha:hi", None) /\
    snd (get_query app "hi") = inr (Some "x", Some "Alpha:hi", None).
Proof.
  eexists. split; [reflexivity|]. repeat split.
Qed.

Section Tagging.

Context `{PatternAlgebra} `{Collaborators}.

Lemma tagged_try_rules (self : QuepyApp) (rs : list Rule) (words : list Word) :
  tagged (effects (generate self (try_rules rs words))) = [] /\
  tagged (fst (first_answer (generate self (try_rules rs words)))) = [].
Proof.
  induction rs as [|r rs [IHe IHf]]; [split; reflexivity|].
  cbn [try_rules]. destruct (get_interpretation r words) as [[e|] u];
    cbn [generate]; [|split; assumption].
  destruct (get_code e (language self)) as [t q]. split; [exact IHe|reflexivity].
Qed.

(** A run of [get_queries] hands one text to the tagger, before
    anything else: the question in the internal encoding. *)
Lemma get_queries_tagging (self : QuepyApp) (question : string) :
  (exists rest,
     effects (get_queries self question)
     = Tagging (encoding_flexible_conversion question) :: rest /\
     tagged rest = []) /\
  (exists rest,
     fst (first_answer (get_queries self question))
     = Tagging (encoding_flexible_conversion question) :: rest /\
     tagged rest = []).
Proof.
  unfold get_queries, _iter_compiled_forms.
  destruct (tagger self (encoding_flexible_conversion question))
    as [[msg| |name]|words]; cbn [generate effects first_answer fst];
    try (split; eexists; split; reflexivity).
  destruct (tagged_try_rules self (rules self) words) as [He Hf].
  destruct (first_answer (generate self (try_rules (rules self) words)))
    as [done r] eqn:Ef.
  split; eexists; (split; [reflexivity|]); cbn; assumption.
Qed.

End Tagging.

(** C5, as amended: [get_query] sanitizes the question first, so that
    every double quote of the text has a backslash before it; the first
    thing it then does, and the only call of the tagger, is to hand the
    tagger that text in the internal encoding.  [get_queries] itself
    does not sanitize: it hands the tagger the question it was given,
    in the internal encoding. *)
Theorem get_query_sanitizes_first `{PatternAlgebra} `{Collaborators}
  (self : QuepyApp) (question : string) :
  all_escaped PyStr.dquote (question_sanitize question) = true /\
  (exists rest,
     fst (get_query self question)
     = Tagging (encoding_flexible_conversion (question_sanitize question))
       :: rest /\
     tagged rest = []) /\
  (exists rest,
     effects (get_queries self question)
     = Tagging (encoding_flexible_conversion question) :: rest /\
     tagged rest = []).
Proof.
  split; [rewrite question_sanitize_expand; apply expand_escaped|]. split.
  - apply (get_queries_tagging self (question_sanitize question)).
  - apply (get_queries_tagging self question).
Qed.

(** C5 as stated fails: [get_queries] hands the question to the tagger
    as it is; for a question with double quotes the query it yields
    carries them bare, where the one [get_query] returns has them after
    a backslash. *)
Lemma get_queries_not_sanitized :
  exists app : QuepyApp,
    snd (__init__ echo_only english []) = inr app /\
    question_sanitize quoted <> quoted /\
    tagged (effects (get_queries app quoted)) = [quoted] /\
    yielded (get_queries app quoted) = [("x", "Echo:" ++ quoted, None)]%string /\
    snd (get_query app quoted)
    = inr (Some "x", Some ("Echo:" ++ question_sanitize quoted)%string, None).
Proof.
  eexists. split; [reflexivity|]. repeat split. discriminate.
Qed.

(** ** Modules and settings *)

Section Modules.

Context {V : Type}.

Lemma getattr_setattr (m : PyModule V) (key name : string) (value : V) :
  getattr (setattr m key value) name
  = if String.eqb key name then Some value else getattr m name.
Proof.
  unfold getattr, setattr. rewrite rev_app_distr. reflexivity.
Qed.

Lemma lookup_bound (name : string) (l : list (string * V)) :
  In name (map fst l) <-> exists v, lookup name l = Some v.
Proof.
  induction l as [|[a v] l IH]; cbn [map fst In lookup].
  - split; [contradiction|]. intros [v Hv]. discriminate.
  - destruct (String.eqb_spec a name) as [->|Hne].
    + split; eauto.
    + rewrite <- IH. split; [intros [Heq|Hin]|]; auto. contradiction.
Qed.

Lemma getattr_bound (name : string) (m : PyModule V) :
  In name (map fst m) <-> exists v, getattr m name = Some v.
Proof.
  unfold getattr. rewrite <- lookup_bound, map_rev, <- in_rev. reflexivity.
Qed.

Lemma insert_name_perm (a : string) (l : list string) :
  Permutation (a :: l) (insert_name a l).
Proof.
  induction l as [|b l IH]; [reflexivity|].
  cbn [insert_name]. destruct (a <=? b)%string; [reflexivity|].
  rewrite perm_swap. now constructor.
Qed.

Lemma sorted_names_perm (l : list string) : Permutation l (sorted_names l).
Proof.
  induction l as [|a l IH]; [reflexivity|].
  cbn [sorted_names fold_right]. rewrite <- insert_name_perm. now constructor.
Qed.

(** [dir] lists exactly the names the module binds, each once. *)
Lemma dir_bound (name : string) (m : PyModule V) :
  In name (dir m) <-> exists v, getattr m name = Some v.
Proof.
  rewrite <- getattr_bound. unfold dir. split; intro Hin.
  - apply (Permutation_in _ (Permutation_sym (sorted_names_perm _))) in Hin.
    now apply nodup_In in Hin.
  - apply (Permutation_in _ (sorted_names_perm _)). now apply nodup_In.
Qed.

Lemma dir_NoDup (m : PyModule V) : NoDup (dir m).
Proof.
  unfold dir. eapply Permutation_NoDup; [apply sorted_names_perm|].
  apply NoDup_nodup.
Qed.

End Modules.

Section Settings.

Context `{PatternAlgebra} `{Collaborators}.

Lemma save_keys_getattr (keys : list string)
  (settings_module settings : PyModule PyValue) (key : string) :
  getattr (save_keys keys settings_module settings) key
  = if existsb (String.eqb key) keys && String.eqb (PyStr.upper key) key
    then match getattr settings_module key with
         | Some value => Some (saved_value value)
         | None => getattr settings key
         end
    else getattr settings key.
Proof.
  revert settings. induction keys as [|k keys IH]; intro settings;
    [reflexivity|].
  cbn [save_keys existsb].
  destruct (String.eqb_spec key k) as [<-|Hne]; cbn [orb].
  - destruct (String.eqb (PyStr.upper key) key) eqn:Eup.
    + rewrite andb_true_r.
      destruct (getattr settings_module key) as [value|] eqn:Eg.
      * rewrite IH, getattr_setattr, String.eqb_refl.
        fold (saved_value value).
        now destruct (existsb (String.eqb key) keys && true).
      * rewrite IH.
        now destruct (existsb (String.eqb key) keys && true).
    + rewrite IH. now rewrite !andb_false_r.
  - destruct (String.eqb (PyStr.upper k) k);
      [destruct (getattr settings_module k) as [value|]|]; rewrite IH;
      try reflexivity.
    rewrite getattr_setattr.
    destruct (String.eqb_spec k key) as [->|_]; [contradiction|reflexivity].
Qed.

Lemma save_settings_bound (settings_module settings : PyModule PyValue)
  (key : string) (value : PyValue) :
  String.eqb (PyStr.upper key) key = true ->
  getattr settings_module key = Some value ->
  getattr (_save_settings_values settings_module settings) key
  = Some (saved_value value).
Proof.
  intros Hup Hg. unfold _save_settings_values.
  rewrite save_keys_getattr, Hup, Hg.
  assert (Hex : existsb (String.eqb key) (dir settings_module) = true).
  { apply existsb_exists. exists key. split; [|apply String.eqb_refl].
    apply dir_bound. eauto. }
  now rewrite Hex.
Qed.

End Settings.

(** X1: what the global settings hold after [_save_settings_values]:
    under an upper-case key that the settings module binds, the
    module's value, a [str] being converted by the encoding policy;
    under any other key, what they held before. *)
Theorem save_settings_lookup `{Collaborators}
  (settings_module settings : PyModule PyValue) (key : string) :
  getattr (_save_settings_values settings_module settings) key
  = if String.eqb (PyStr.upper key) key
    then match getattr settings_module key with
         | Some value => Some (saved_value value)
         | None => getattr settings key
         end
    else getattr settings key.
Proof.
  unfold _save_settings_values. rewrite save_keys_getattr.
  destruct (String.eqb (PyStr.upper key) key);
    [rewrite andb_true_r|now rewrite andb_false_r].
  destruct (getattr settings_module key) as [value|] eqn:Eg.
  - assert (Hin : In key (dir settings_module)) by (apply dir_bound; eauto).
    assert (Hex : existsb (String.eqb key) (dir settings_module) = true).
    { apply existsb_exists. exists key. split; [exact Hin|].
      apply String.eqb_refl. }
    now rewrite Hex.
  - now destruct (existsb (String.eqb key) (dir settings_module)).
Qed.



(** X3: a [LANGUAGE] that is declared but empty, zero, false or [None]
    is refused like a missing one, and the refusal comes after the
    settings were saved: the upper-case keys of the settings module are
    in the global settings although no application was built. *)
Theorem init_failure_keeps_settings `{PatternAlgebra} `{Collaborators}
  (parsing : PyModule Element) (settings_module settings : PyModule PyValue)
  (key : string) (value : PyValue) :
  truthy (getattr_default settings_module "LANGUAGE" VNone) = false ->
  String.eqb (PyStr.upper key) key = true ->
  getattr settings_module key = Some value ->
  snd (__init__ parsing settings_module settings)
  = inl (ValueError "Missing configuration for language") /\
  getattr (fst (__init__ parsing settings_module settings)) key
  = Some (saved_value value).
Proof.
  intros Hl Hup Hg. unfold __init__. rewrite Hl. cbn [negb fst snd].
  split; [reflexivity|]. now apply save_settings_bound.
Qed.

Lemma init_failure_keeps_settings_witness :
  snd (__init__ zeta_alpha empty_language [])
  = inl (ValueError "Missing configuration for language") /\
  getattr (fst (__init__ zeta_alpha empty_language [])) "DEBUG"
  = Some (VBool true).
Proof.
  apply (init_failure_keeps_settings zeta_alpha empty_language []
           "DEBUG" (VBool true)); reflexivity.
Defined.

(** ** Discovery and order of the rules *)

Section Discovery.

Context `{Collaborators}.

Lemma collect_rules_In (names : list string) (parsing : PyModule Element)
  (r : Rule) :
  In r (collect_rules names parsing) <->
  exists name, In name names /\ getattr parsing name = Some (RuleClass r).
Proof.
  induction names as [|n names IH]; cbn [collect_rules].
  - split; [contradiction|]. now intros [name [[] _]].
  - destruct (getattr parsing n) as [[r'| | |]|] eqn:En; cbn [In];
      rewrite ?IH; split;
      try (intros [name [Hin Hg]]; exists name; split; [now right|exact Hg]);
      try (intros [name [[<-|Hin] Hg]]; [congruence|eauto]).
    + intros [<-|[name [Hin Hg]]]; [exists n; split; [now left|exact En]|].
      exists name. split; [now right|exact Hg].
    + intros [name [[<-|Hin] Hg]]; [left; congruence|right; eauto].
Qed.

Lemma collect_rules_names (names : list string) (parsing : PyModule Element) :
  Forall2 (fun name r => getattr parsing name = Some (RuleClass r))
    (filter (fun name => match getattr parsing name with
                         | Some (RuleClass _) => true
                         | _ => false
                         end) names)
    (collect_rules names parsing).
Proof.
  induction names as [|n names IH]; [constructor|].
  cbn [filter collect_rules].
  destruct (getattr parsing n) as [[r| | |]|] eqn:En; try exact IH.
  constructor; [exact En|exact IH].
Qed.

End Discovery.

(** X4: [get_rules] instantiates exactly the subclasses of
    [QuestionTemplate] the parsing module binds: a rule is discovered
    when some name of the module is bound to its class, and the rules
    stand one for one against distinct names; [QuestionTemplate] itself,
    other classes and values that are no classes give no rule. *)
Theorem get_rules_exact `{Collaborators} (parsing : PyModule Element) :
  (forall r, In r (get_rules parsing) <->
     exists name, getattr parsing name = Some (RuleClass r)) /\
  exists names,
    NoDup names /\
    Forall2 (fun name r => getattr parsing name = Some (RuleClass r))
      names (get_rules parsing).
Proof.
  split.
  - intro r. unfold get_rules. rewrite collect_rules_In. split.
    + intros [name [_ Hg]]. eauto.
    + intros [name Hg]. exists name. split; [|exact Hg].
      apply dir_bound. eauto.
  - eexists. split; [|apply collect_rules_names].
    apply NoDup_filter, dir_NoDup.
Qed.

Lemma get_rules_exact_witness :
  In (echo_rule "Alpha" 1) (get_rules zeta_alpha).
Proof.
  apply (proj1 (get_rules_exact zeta_alpha)). exists "Alpha". reflexivity.
Defined.

(** X5: the rules of a built application are the discovered rules
    rearranged: the same rules, weights never increasing along the
    list, and the rules of any one weight in the order of discovery. *)
Theorem init_rules_sorted `{PatternAlgebra} `{Collaborators}
  (parsing : PyModule Element) (settings_module settings : PyModule PyValue)
  (app : QuepyApp) :
  snd (__init__ parsing settings_module settings) = inr app ->
  Permutation (get_rules parsing) (rules app) /\
  StronglySorted descending (rules app) /\
  forall w, filter (fun r => (weight r =? w)%Z) (rules app)
            = filter (fun r => (weight r =? w)%Z) (get_rules parsing).
Proof.
  unfold __init__.
  destruct (negb (truthy (getattr_default settings_module "LANGUAGE" VNone)));
    [discriminate|].
  cbn [snd]. intros [= <-]. cbn [rules]. split; [|split].
  - apply sort_rules_perm.
  - apply sort_rules_sorted.
  - intro w. apply sort_rules_stable.
Qed.

Lemma init_rules_sorted_witness :
  exists app : QuepyApp,
    snd (__init__ light_heavy english []) = inr app /\
    map rule_name (rules app) = ["Heavy"; "Light"] /\
    StronglySorted descending (rules app).
Proof.
  eexists. split; [reflexivity|]. split; [reflexivity|].
  apply (init_rules_sorted light_heavy english [] _ eq_refl).
Defined.

(** X6: a parsing module that binds no rule class gives an application
    without rules and without partial rules, and [get_query] answers
    [(None, None, None)] to every question the tagger tags. *)
Theorem init_without_rules `{PatternAlgebra} `{Collaborators}
  (parsing : PyModule Element) (settings_module settings : PyModule PyValue)
  (app : QuepyApp) :
  (forall name r, getattr parsing name <> Some (RuleClass r)) ->
  snd (__init__ parsing settings_module settings) = inr app ->
  rules app = [] /\ partial_rules app = [] /\
  forall question words,
    tagger app (encoding_flexible_conversion (question_sanitize question))
    = inr words ->
    snd (get_query app question) = inr (None, None, None).
Proof.
  intros Hnone Hinit.
  assert (Hrules : get_rules parsing = []).
  { destruct (get_rules parsing) as [|r l] eqn:E; [reflexivity|].
    exfalso. unfold get_rules in E.
    destruct (proj1 (collect_rules_In (dir parsing) parsing r))
      as [name [_ Hg]]; [rewrite E; now left|].
    exact (Hnone name r Hg). }
  revert Hinit. unfold __init__.
  destruct (negb (truthy (getattr_default settings_module "LANGUAGE" VNone)));
    [discriminate|].
  cbn [snd]. intros [= <-]. cbn [rules partial_rules]. rewrite Hrules.
  split; [reflexivity|]. split; [reflexivity|].
  intros question words Htag.
  rewrite (get_query_tagged _ _ _ Htag). reflexivity.
Qed.

Lemma init_without_rules_witness :
  exists app : QuepyApp,
    snd (__init__ no_rules english []) = inr app /\
    rules app = [] /\ partial_rules app = [] /\
    snd (get_query app "Who is Bob?") = inr (None, None, None).
Proof.
  eexists. split; [reflexivity|].
  assert (Hnone : forall name r, getattr no_rules name <> Some (RuleClass r)).
  { intros name r. unfold getattr, no_rules. cbn [rev app lookup].
    destruct (String.eqb "__doc__" name); [discriminate|].
    destruct (String.eqb "Particle" name); [discriminate|].
    destruct (String.eqb "QuestionTemplate" name); discriminate. }
  destruct (@init_without_rules rendered stubs no_rules english [] _
              Hnone eq_refl) as [Hr [Hp Hq]].
  split; [exact Hr|]. split; [exact Hp|].
  apply (Hq "Who is Bob?" [("Who is Bob?", "NN")]). reflexivity.
Defined.

(** ** The pipeline: every match, errors and laziness *)

Section Runs.

Context `{PatternAlgebra} `{Collaborators}.

Lemma produced_filter (self : QuepyApp) (rs : list Rule) (words : list Word) :
  map Some (flat_map (fun r => match produced self words r with
                               | Some y => [y]
                               | None => []
                               end) rs)
  = map (produced self words) (filter (matches words) rs).
Proof.
  induction rs as [|r rs IH]; [reflexivity|].
  cbn [flat_map filter]. rewrite (produced_matches self).
  destruct (produced self words r) as [y|] eqn:Ep; cbn [app map].
  - now rewrite Ep, IH.
  - exact IH.
Qed.

Lemma first_answer_rules_short (self : QuepyApp) (rs : list Rule)
  (words : list Word) :
  List.length (fst (first_answer (generate self (try_rules rs words)))) <= 2.
Proof.
  induction rs as [|r rs IH]; [cbn; lia|].
  cbn [try_rules]. destruct (get_interpretation r words) as [[e|] u];
    cbn [generate]; [|exact IH].
  destruct (get_code e (language self)) as [t q]. cbn. lia.
Qed.

Lemma first_answer_prefix (g : Gen (string * string * option Userdata)) :
  exists rest, effects g = fst (first_answer g) ++ rest.
Proof.
  induction g as [|e|eff k [rest IH]|[[t q] u] k _].
  - now exists [].
  - now exists [].
  - exists rest. cbn [effects first_answer].
    destruct (first_answer k) as [done r]. cbn [fst] in *. now rewrite IH.
  - exists (effects k). reflexivity.
Qed.

End Runs.

(** X7: when the tagger tags the question, [get_queries] raises nothing
    and yields one result for each rule that gives an interpretation of
    the words, in the order of the rules of the application: what the
    code generator makes of that interpretation, with the rule's user
    data. *)
Theorem get_queries_all_matches `{PatternAlgebra} `{Collaborators}
  (self : QuepyApp) (question : string) (words : list Word) :
  tagger self (encoding_flexible_conversion question) = inr words ->
  raised (get_queries self question) = None /\
  map Some (yielded (get_queries self question))
  = map (produced self words) (filter (matches words) (rules self)).
Proof.
  intro Htag. rewrite (get_queries_tagged _ _ _ Htag).
  cbn [raised yielded]. split; [apply raised_try_rules|].
  rewrite yielded_try_rules. apply produced_filter.
Qed.

Lemma get_queries_all_matches_witness :
  exists app : QuepyApp,
    snd (__init__ light_heavy english []) = inr app /\
    yielded (get_queries app "hi")
    = [("x", "Heavy:hi", None); ("x", "Light:hi", None)] /\
    map Some (yielded (get_queries app "hi"))
    = map (produced app [("hi", "NN")])
        (filter (matches [("hi", "NN")]) (rules app)).
Proof.
  eexists. split; [reflexivity|]. split; [reflexivity|].
  apply (@get_queries_all_matches rendered stubs _ "hi"
           ([("hi", "NN")] : list (@Word stubs))).
  reflexivity.
Defined.

(** X8: an error of the tagger other than the tagging error is not
    caught: [get_queries] raises it when it is run, having yielded and
    logged nothing. *)
Theorem get_queries_tagger_crash `{PatternAlgebra} `{Collaborators}
  (self : QuepyApp) (question : string) (e : Exn) :
  tagger self (encoding_flexible_conversion question) = inl e ->
  e <> TaggingError ->
  yielded (get_queries self question) = [] /\
  raised (get_queries self question) = Some e /\
  effects (get_queries self question)
  = [Tagging (encoding_flexible_conversion question)].
Proof.
  intros Htag He. unfold get_queries, _iter_compiled_forms. rewrite Htag.
  destruct e as [msg| |name]; [|contradiction|]; repeat split.
Qed.

Lemma get_queries_tagger_crash_witness :
  exists app : @QuepyApp crashing_tagger,
    snd (@__init__ rendered crashing_tagger [] english []) = inr app /\
    yielded (get_queries app "Who is Bob?") = [] /\
    raised (get_queries app "Who is Bob?") = Some (OtherError "IOError") /\
    effects (get_queries app "Who is Bob?") = [Tagging "Who is Bob?"].
Proof.
  eexists. split; [reflexivity|].
  apply (@get_queries_tagger_crash rendered crashing_tagger);
    [reflexivity|discriminate].
Defined.

(** X9: what [get_query] does when the tagger fails on the sanitized
    question: on the tagging error it logs one warning and returns
    [(None, None, None)]; on any other error it raises that error. *)
Theorem get_query_tagger_failure `{PatternAlgebra} `{Collaborators}
  (self : QuepyApp) (question : string) (e : Exn) :
  tagger self (encoding_flexible_conversion (question_sanitize question))
  = inl e ->
  get_query self question
  = match e with
    | TaggingError =>
        ([Tagging (encoding_flexible_conversion (question_sanitize question));
          Logging WARNING
            (CantParse
               (encoding_flexible_conversion (question_sanitize question)))],
         inr (None, None, None))
    | _ =>
        ([Tagging (encoding_flexible_conversion (question_sanitize question))],
         inl e)
    end.
Proof.
  intro Htag. unfold get_query, get_queries, _iter_compiled_forms.
  rewrite Htag. now destruct e.
Qed.

Lemma get_query_tagger_failure_witness :
  exists app : QuepyApp,
    snd (__init__ zeta_alpha english []) = inr app /\
    get_query app ""
    = ([Tagging ""; Logging WARNING (CantParse "")], inr (None, None, None)).
Proof.
  eexists. split; [reflexivity|].
  apply (@get_query_tagger_failure rendered stubs _ "" TaggingError).
  reflexivity.
Defined.

(** X10: [get_query] stops at the first result: what it does is the
    beginning of what a full run of [get_queries] on the sanitized
    question does, and it is at most four steps, one call of the
    tagger and three log records, so that code is generated for one
    interpretation at most. *)
Theorem get_query_stops_at_first `{PatternAlgebra} `{Collaborators}
  (self : QuepyApp) (question : string) :
  (exists rest,
     effects (get_queries self (question_sanitize question))
     = fst (get_query self question) ++ rest) /\
  List.length (fst (get_query self question)) <= 4 /\
  List.length (tagged (fst (get_query self question))) = 1.
Proof.
  split; [apply first_answer_prefix|].
  unfold get_query, get_queries, _iter_compiled_forms.
  destruct (tagger self
              (encoding_flexible_conversion (question_sanitize question)))
    as [[msg| |name]|words]; cbn [generate first_answer fst];
    try (split; cbn; [lia|reflexivity]).
  pose proof (first_answer_rules_short self (rules self) words) as Hshort.
  destruct (tagged_try_rules self (rules self) words) as [_ Htag].
  destruct (first_answer (generate self (try_rules (rules self) words)))
    as [done r]. cbn [fst] in *. split; [cbn; lia|].
  unfold tagged in *. cbn [flat_map app]. now rewrite Htag.
Qed.

(** ** The sanitizer on concatenations *)

Section SanitizeMore.

Import PyStr.

Lemma expand_app (a b : string) :
  expand dquote (String backslash (String dquote "")) (a ++ b)%string
  = (expand dquote (String backslash (String dquote "")) a
     ++ expand dquote (String backslash (String dquote "")) b)%string.
Proof.
  induction a as [|c a IH]; [reflexivity|].
  cbn [append expand]. destruct (Ascii.eqb dquote c); cbn [append];
    now rewrite IH.
Qed.

Lemma expand_count (s : string) :
  String.length (expand dquote (String backslash (String dquote "")) s)
  = String.length s + count_char dquote s.
Proof.
  induction s as [|c s IH]; [reflexivity|].
  cbn [expand count_char]. destruct (Ascii.eqb dquote c);
    cbn [append String.length]; rewrite IH; lia.
Qed.

Lemma expand_keeps (c : ascii) (s : string) :
  c <> backslash ->
  count_char c (expand dquote (String backslash (String dquote "")) s)
  = count_char c s.
Proof.
  intro Hc. apply Ascii.eqb_neq in Hc.
  induction s as [|d s IH]; [reflexivity|].
  cbn [expand]. destruct (Ascii.eqb dquote d) eqn:E.
  - apply Ascii.eqb_eq in E. subst d.
    cbn [append count_char]. now rewrite Hc, IH.
  - cbn [count_char]. now rewrite IH.
Qed.

End SanitizeMore.

(** X11: sanitizing a text made of two parts gives the sanitized parts
    one after the other: a question can be sanitized piece by piece. *)
Theorem question_sanitize_app (a b : string) :
  question_sanitize (a ++ b)%string
  = (question_sanitize a ++ question_sanitize b)%string.
Proof.
  rewrite !question_sanitize_expand. apply expand_app.
Qed.

(** X12: the sanitized text is longer than the question by the number
    of its double quotes; nothing is ever removed. *)
Theorem question_sanitize_length (question : string) :
  String.length (question_sanitize question)
  = String.length question + count_char PyStr.dquote question.
Proof.
  rewrite question_sanitize_expand. apply expand_count.
Qed.

(** X19: the sanitizer adds backslashes and nothing else: every other
    character, the single and the double quote among them, occurs in
    the sanitized text as often as in the question. *)
Theorem question_sanitize_keeps (question : string) (c : ascii) :
  c <> PyStr.backslash ->
  count_char c (question_sanitize question) = count_char c question.
Proof.
  intro Hc. rewrite question_sanitize_expand. now apply expand_keeps.
Qed.

Lemma question_sanitize_keeps_witness :
  count_char PyStr.squote (question_sanitize "Who's Bob's boss?") = 2.
Proof.
  rewrite (question_sanitize_keeps "Who's Bob's boss?" PyStr.squote).
  - reflexivity.
  - discriminate.
Defined.

(** ** Searching and removing duplicates, for any comparison *)

Section Search.

Context {A : Type} (f : A -> A -> bool).

Lemma dedup_from_unchanged (l seen : list A) :
  (forall x z, In x l -> In z seen -> f x z = false) ->
  ForallOrdPairs (fun p q => f q p = false) l ->
  dedup_from f seen l = l.
Proof.
  revert seen. induction l as [|x l IH]; intros seen Hseen Hpairs;
    [reflexivity|].
  inversion Hpairs as [|a l' Hx Hl]; subst.
  cbn [dedup_from].
  assert (E : find_pattern x seen f = false).
  { apply find_pattern_false. intros z Hz. apply Hseen; [now left|exact Hz]. }
  rewrite E. f_equal. apply IH; [|exact Hl].
  intros y z Hy Hz. apply in_app_iff in Hz as [Hz|[<-|[]]].
  - apply Hseen; [now right|exact Hz].
  - now apply (proj1 (Forall_forall _ _) Hx).
Qed.

Lemma dedup_from_incl (l seen : list A) (x : A) :
  In x (dedup_from f seen l) -> In x l.
Proof.
  revert seen. induction l as [|h l IH]; intro seen; [contradiction|].
  cbn [dedup_from]. destruct (find_pattern h seen f).
  - intro Hx. right. now apply (IH _ Hx).
  - intros [<-|Hx]; [now left|]. right. now apply (IH _ Hx).
Qed.

Lemma dedup_from_length (l seen : list A) :
  List.length (dedup_from f seen l) <= List.length l.
Proof.
  revert seen. induction l as [|h l IH]; intro seen; [apply Nat.le_refl|].
  cbn [dedup_from]. specialize (IH (seen ++ [h])).
  destruct (find_pattern h seen f); cbn [List.length]; lia.
Qed.

Lemma dedup_from_dropped (l seen : list A) (x : A) :
  In x l ->
  In x (dedup_from f seen l) \/
  exists y, In y (seen ++ l) /\ f x y = true.
Proof.
  revert seen. induction l as [|h l IH]; intros seen; [contradiction|].
  cbn [dedup_from]. intros [<-|Hx].
  - destruct (find_pattern h seen f) eqn:E; [|left; now left].
    right. apply find_pattern_true in E as [y [Hy Hf]].
    exists y. split; [apply in_app_iff; now left|exact Hf].
  - destruct (IH (seen ++ [h]) Hx) as [Hin|[y [Hy Hf]]].
    + left. destruct (find_pattern h seen f); [exact Hin|now right].
    + right. exists y. split; [|exact Hf].
      rewrite <- app_assoc in Hy. exact Hy.
Qed.

End Search.

(** X13: [find_pattern] answers whether [f] accepts the pattern with
    some entry of the list, the pattern given first; so it is false on
    the empty list, and on two lists put together it is true when it is
    on one of them. *)
Theorem find_pattern_exists {A : Type} (f : A -> A -> bool)
  (pattern : A) (iterable : list A) :
  (find_pattern pattern iterable f = true <->
     exists i, In i iterable /\ f pattern i = true) /\
  forall more,
    find_pattern pattern (iterable ++ more) f
    = find_pattern pattern iterable f || find_pattern pattern more f.
Proof.
  split; [apply find_pattern_true|].
  intro more. induction iterable as [|i l IH]; [reflexivity|].
  cbn [app find_pattern]. now destruct (f pattern i).
Qed.

Lemma find_pattern_exists_witness : find_pattern 3 [1; 3] Nat.eqb = true.
Proof.
  apply (proj1 (find_pattern_exists Nat.eqb 3 [1; 3])).
  exists 3. split; [right; left|]; reflexivity.
Defined.

(** X14: [remove_duplicates] returns the list it was given exactly
    when [f] accepts no entry with an entry before it. *)
Theorem remove_duplicates_unchanged {A : Type} (f : A -> A -> bool)
  (iterable : list A) :
  remove_duplicates iterable f = iterable <->
  ForallOrdPairs (fun earlier later => f later earlier = false) iterable.
Proof.
  rewrite remove_duplicates_dedup. split.
  - intro Heq. rewrite <- Heq. apply dedup_from_pairs.
  - intro Hpairs. apply dedup_from_unchanged; [contradiction|exact Hpairs].
Qed.

Lemma remove_duplicates_unchanged_witness :
  remove_duplicates [1; 2; 3] Nat.eqb = [1; 2; 3].
Proof.
  apply (proj2 (remove_duplicates_unchanged Nat.eqb [1; 2; 3])).
  repeat constructor.
Defined.

(** X15: for any comparison, [remove_duplicates] only drops entries:
    the result holds entries of the list and is no longer than it, the
    first entry is always kept, and an entry of the list that is not
    in the result is accepted by [f] with some entry of the list. *)
Theorem remove_duplicates_drops {A : Type} (f : A -> A -> bool)
  (iterable : list A) :
  (forall x, In x (remove_duplicates iterable f) -> In x iterable) /\
  List.length (remove_duplicates iterable f) <= List.length iterable /\
  (forall x rest, iterable = x :: rest ->
     exists kept, remove_duplicates iterable f = x :: kept) /\
  (forall x, In x iterable ->
     In x (remove_duplicates iterable f) \/
     exists y, In y iterable /\ f x y = true).
Proof.
  rewrite remove_duplicates_dedup. repeat split.
  - intro x. apply dedup_from_incl.
  - apply dedup_from_length.
  - intros x rest ->. eexists. reflexivity.
  - intros x Hx. apply (dedup_from_dropped f iterable [] x Hx).
Qed.

Lemma remove_duplicates_drops_witness :
  exists kept, remove_duplicates [3; 1; 3; 2; 1] Nat.eqb = 3 :: kept.
Proof.
  apply (proj1 (proj2 (proj2 (remove_duplicates_drops Nat.eqb [3; 1; 3; 2; 1])))
           3 [1; 3; 2; 1]).
  reflexivity.
Defined.

(** ** The fragments and the partial rules *)

Section Fragments.

Lemma visit_item_pattern (item : pyobj) :
  visit_item item = [] \/
  exists y, visit_item item = refo_subpatterns y ++ [y] /\
            size y <= size item /\ isinstance_Pattern y = true.
Proof.
  unfold visit_item, unwrap_question.
  destruct (isinstance_Question item).
  - destruct item as [c args|items|t v]; cbn [getattr_obj]; auto.
    destruct (lookup "arg" args) as [v|] eqn:El; auto.
    destruct (isinstance_Pattern v) eqn:Ep; auto.
    right. exists v. split; [reflexivity|]. split; [|exact Ep].
    apply (size_lookup _ _ _ c) in El. lia.
  - destruct (isinstance_Pattern item) eqn:Ep; [|now left].
    right. exists item. auto.
Qed.

Lemma fragments_smaller (n : nat) (o x : pyobj) :
  size o <= n -> In x (refo_subpatterns o) ->
  isinstance_Pattern x = true /\ size x < size o.
Proof.
  revert o x. induction n as [|n IH]; intros o x Hsize.
  - destruct o; cbn in Hsize; lia.
  - rewrite refo_subpatterns_unfold.
    destruct (isinstance_Particle o); [contradiction|].
    intro Hin. apply in_flat_map in Hin as [attribute [Hattr Hin]].
    apply in_flat_map in Hin as [item [Hitem Hin]].
    destruct o as [cls attrs|items|t v]; try contradiction.
    apply size_attribute in Hattr. apply size_item in Hitem.
    destruct (visit_item_pattern item) as [E|[y [E [Hy Hp]]]];
      rewrite E in Hin; [contradiction|].
    apply in_app_iff in Hin as [Hin|[<-|[]]].
    + destruct (IH y x) as [Hpx Hsx]; [lia|exact Hin|]. split; [exact Hpx|lia].
    + split; [exact Hp|lia].
Qed.

End Fragments.

(** X16: every fragment [refo_subpatterns] yields is a [Pattern], never
    a list or another value, and a proper part of the object that was
    decomposed: the object itself is never among its fragments. *)
Theorem refo_subpatterns_parts (regex x : pyobj) :
  In x (refo_subpatterns regex) ->
  isinstance_Pattern x = true /\ size x < size regex /\ x <> regex.
Proof.
  intro Hin.
  destruct (fragments_smaller (size regex) regex x (Nat.le_refl _) Hin)
    as [Hp Hs].
  split; [exact Hp|]. split; [exact Hs|]. intros ->. lia.
Qed.

Lemma refo_subpatterns_parts_witness :
  isinstance_Pattern (encode AtomicAny) = true /\
  size (encode AtomicAny) < size (encode two_children) /\
  encode AtomicAny <> encode two_children.
Proof.
  apply (refo_subpatterns_parts (encode two_children) (encode AtomicAny)).
  right. right. left. reflexivity.
Defined.

(** X17: attributes whose name starts with an underscore are not looked
    at: an object decomposes like the object without them, and patterns
    held only under such names are not yielded. *)
Theorem refo_subpatterns_private (cls : klass)
  (attrs : list (string * pyobj)) :
  refo_subpatterns (Instance cls attrs)
  = refo_subpatterns
      (Instance cls (filter (fun p => public (fst p)) attrs)) /\
  (forallb (fun p => negb (public (fst p))) attrs = true ->
   refo_subpatterns (Instance cls attrs) = []).
Proof.
  rewrite !refo_subpatterns_Instance. split.
  - destruct (kind_eqb (class_kind cls) KParticle); [reflexivity|].
    f_equal. f_equal. induction attrs as [|[a v] attrs IH]; [reflexivity|].
    cbn [filter fst]. destruct (public a) eqn:E; [|exact IH].
    cbn [filter fst]. rewrite E. now f_equal.
  - intro Hall. destruct (kind_eqb (class_kind cls) KParticle); [reflexivity|].
    replace (filter (fun p => public (fst p)) attrs) with (@nil (string * pyobj));
      [reflexivity|].
    induction attrs as [|[a v] attrs IH]; [reflexivity|].
    cbn [forallb fst] in Hall. apply andb_true_iff in Hall as [Ha Hl].
    cbn [filter fst]. apply negb_true_iff in Ha. rewrite Ha. now apply IH.
Qed.

Lemma refo_subpatterns_private_witness :
  refo_subpatterns
    (Instance (pattern_class "Star") [("_x", encode AtomicAny)]) = [].
Proof.
  apply (proj2 (refo_subpatterns_private (pattern_class "Star")
                  [("_x", encode AtomicAny)])).
  reflexivity.
Defined.

Section PartialRules.

Context `{PatternAlgebra} `{Collaborators}.

Lemma copies_positive (x : pyobj) (l : list pyobj) :
  copies x l = 1 -> exists q, In q l /\ compare_patterns x q = true.
Proof.
  unfold copies. intro Hc.
  destruct (filter (compare_patterns x) l) as [|q qs] eqn:E; [discriminate|].
  assert (Hq : In q (filter (compare_patterns x) l)) by (rewrite E; now left).
  apply filter_In in Hq. eauto.
Qed.

End PartialRules.

(** X18: the partial rules come from the fragments and cover them:
    every partial rule is the pattern built around a fragment of some
    rule, and the pattern built around any fragment of any rule
    compares equal to one of the partial rules. *)
Theorem get_partial_rules_cover `{PatternAlgebra} `{Collaborators}
  (rules : list Rule) :
  (forall q, In q (get_partial_rules rules) ->
     exists rule p, In rule rules /\ In p (refo_subpatterns (regex rule)) /\
                    q = anywhere p) /\
  (forall rule p, In rule rules -> In p (refo_subpatterns (regex rule)) ->
     exists q, In q (get_partial_rules rules) /\
               compare_patterns (anywhere p) q = true).
Proof.
  unfold get_partial_rules. split.
  - intros q Hq. rewrite remove_duplicates_dedup in Hq.
    apply dedup_from_incl in Hq.
    apply in_flat_map in Hq as [rule [Hrule Hq]].
    apply in_map_iff in Hq as [p [<- Hp]]. eauto.
  - intros rule p Hrule Hp. apply copies_positive.
    apply remove_duplicates_one. exists (anywhere p).
    split; [|apply compare_patterns_refl].
    apply in_flat_map. exists rule. split; [exact Hrule|].
    now apply in_map.
Qed.

Lemma get_partial_rules_cover_witness :
  exists q, In q (get_partial_rules [echo_rule "Zeta" 1; echo_rule "Alpha" 1])
            /\ compare_patterns (anywhere (encode AtomicAny)) q = true.
Proof.
  apply (proj2 (get_partial_rules_cover
                  [echo_rule "Zeta" 1; echo_rule "Alpha" 1])
           (echo_rule "Alpha" 1) (encode AtomicAny)).
  - right. left. reflexivity.
  - left. reflexivity.
Defined.
